(** * A shallow embedding of the scraping engine [app/services/scraper.py]

    The development follows class [FirecrawlScraper]: the helper methods
    ([_fetch_page] with its retry decorator, [_crawl_page],
    [_html_to_markdown], [_extract_text], [_should_crawl], [_get_url_depth],
    [_classify_page_type]) and the four modes ([scrape_single], [crawl_site],
    [map_site], [search_and_scrape]), and then class [LeadDiscoveryEngine]
    ([discover_by_industry], [discover_from_directory], [enrich_lead]).

    What lies outside the class is a parameter of the model: the network
    ([client.get]), the HTML parser, [urllib.parse], [re.search] and the
    language-model call.  Effects are threaded through an environment that
    carries the state of the outside world and a trace of the calls made. *)

From Stdlib Require Import String Ascii List ZArith Lia Bool Arith.
Import ListNotations.
Local Open Scope string_scope.
Local Open Scope list_scope.

(** ** Python string methods (on ASCII text) *)

Definition lower_ascii (c : ascii) : ascii :=
  let n := nat_of_ascii c in
  if ((65 <=? n) && (n <=? 90))%nat then ascii_of_nat (n + 32) else c.

(** [s.lower()] *)
Fixpoint lower (s : string) : string :=
  match s with
  | EmptyString => EmptyString
  | String c s' => String (lower_ascii c) (lower s')
  end.

(** [s.startswith(p)] *)
Definition startswith (s p : string) : bool := String.prefix p s.

(** [s.endswith(suffix)]: some tail of [s] is [suffix]. *)
Fixpoint endswith (s suffix : string) : bool :=
  (s =? suffix) ||
  match s with
  | EmptyString => false
  | String _ s' => endswith s' suffix
  end.

(** [x in s] for strings: [x] occurs in [s]. *)
Fixpoint contains (x s : string) : bool :=
  String.prefix x s ||
  match s with
  | EmptyString => false
  | String _ s' => contains x s'
  end.

(** [any(x in s for x in xs)] *)
Definition any_in (xs : list string) (s : string) : bool :=
  existsb (fun x => contains x s) xs.

(** [s.split('#')[0]] *)
Fixpoint before_hash (s : string) : string :=
  match s with
  | EmptyString => EmptyString
  | String c s' => if (c =? "#")%char then EmptyString else String c (before_hash s')
  end.

Definition is_space (c : ascii) : bool :=
  let n := nat_of_ascii c in
  (((9 <=? n) && (n <=? 13)) || ((28 <=? n) && (n <=? 32)))%nat.

Fixpoint lstrip (s : string) : string :=
  match s with
  | EmptyString => EmptyString
  | String c s' => if is_space c then lstrip s' else s
  end.

Fixpoint rstrip (s : string) : string :=
  match s with
  | EmptyString => EmptyString
  | String c s' =>
      match rstrip s' with
      | EmptyString => if is_space c then EmptyString else String c EmptyString
      | r => String c r
      end
  end.

(** [s.strip()] *)
Definition strip (s : string) : string := lstrip (rstrip s).

(** [s.rstrip('/')] *)
Fixpoint rstrip_slash (s : string) : string :=
  match s with
  | EmptyString => EmptyString
  | String c s' =>
      match rstrip_slash s' with
      | EmptyString => if (c =? "/")%char then EmptyString else String c EmptyString
      | r => String c r
      end
  end.

(** [s.split(sep)] for a one-character separator. *)
Fixpoint split_on (sep : ascii) (s : string) : list string :=
  match s with
  | EmptyString => [EmptyString]
  | String c s' =>
      if (c =? sep)%char then EmptyString :: split_on sep s'
      else match split_on sep s' with
           | [] => [String c EmptyString]
           | h :: t => String c h :: t
           end
  end.

Fixpoint drop (n : nat) (s : string) : string :=
  match n, s with
  | O, _ => s
  | S _, EmptyString => EmptyString
  | S n', String _ s' => drop n' s'
  end.

(** [s.replace(old, '', 1)] for a non-empty [old]: the leftmost occurrence of
    [old] is removed. *)
Fixpoint remove_first (old s : string) : string :=
  if String.prefix old s then drop (String.length old) s
  else match s with
       | EmptyString => EmptyString
       | String c s' => String c (remove_first old s')
       end.

Definition nonempty (s : string) : bool :=
  match s with EmptyString => false | _ => true end.

Definition newline : string := String (ascii_of_nat 10) EmptyString.
Definition newline_char : ascii := ascii_of_nat 10.

(** [x in xs] for a list or a set of strings. *)
Definition mem (x : string) (xs : list string) : bool := existsb (String.eqb x) xs.

(** [list(set(xs))]: the distinct elements (Python leaves their order
    unspecified; the model keeps the order of the last occurrences). *)
Definition list_set (xs : list string) : list string := nodup string_dec xs.

(** [xs[:n]] for any integer [n]: the first [n] items, and all but the last
    [-n] when [n] is negative. *)
Definition slice_to {A : Type} (n : Z) (xs : list A) : list A :=
  if (0 <=? n)%Z then firstn (Z.to_nat n) xs
  else firstn (List.length xs - Z.to_nat (- n)) xs.

(** ** The parsed document (the part of a BeautifulSoup tree the engine reads) *)

#[local] Set Warnings "-register-all,-abstract-large-number".

Inductive Node : Type :=
| NavigableString (s : string)
| Tag (name : string) (attrs : list (string * string)) (contents : list Node).

Definition Soup := list Node.

Fixpoint lookup (k : string) (kv : list (string * string)) : option string :=
  match kv with
  | [] => None
  | (k', v) :: kv' => if k =? k' then Some v else lookup k kv'
  end.

(** [tag.get(key)] *)
Definition attr (key : string) (n : Node) : option string :=
  match n with NavigableString _ => None | Tag _ at_ _ => lookup key at_ end.

(** [soup.find_all(...)]: the matching tags, in document order. *)
Fixpoint find_all_in (p : Node -> bool) (n : Node) : list Node :=
  match n with
  | NavigableString _ => []
  | Tag _ _ cs => (if p n then [n] else []) ++ flat_map (find_all_in p) cs
  end.

Definition find_all (p : Node -> bool) (soup : Soup) : list Node :=
  flat_map (find_all_in p) soup.

(** [soup.find(...)] *)
Definition find (p : Node -> bool) (soup : Soup) : option Node :=
  hd_error (find_all p soup).

Definition named (names : list string) (n : Node) : bool :=
  match n with NavigableString _ => false | Tag nm _ _ => mem nm names end.

(** [for tag in soup.find_all(names): tag.decompose()]: every tag with one
    of the names is removed with all it contains. *)
Fixpoint decompose_in (names : list string) (n : Node) : list Node :=
  match n with
  | NavigableString _ => [n]
  | Tag nm at_ cs =>
      if mem nm names then [] else [Tag nm at_ (flat_map (decompose_in names) cs)]
  end.

Definition decompose_all (names : list string) (soup : Soup) : Soup :=
  flat_map (decompose_in names) soup.

Fixpoint strings_in (n : Node) : list string :=
  match n with
  | NavigableString s => [s]
  | Tag _ _ cs => flat_map strings_in cs
  end.

(** [soup.get_text(separator=sep, strip=True)]: the strings of the document,
    each stripped, the empty ones dropped, joined by [sep]. *)
Definition get_text (sep : string) (soup : Soup) : string :=
  String.concat sep (filter nonempty (map strip (flat_map strings_in soup))).

(** [tag.string]: the single string below a tag, [None] when there is not
    exactly one child at some level. *)
Fixpoint node_string (n : Node) : option string :=
  match n with
  | NavigableString s => Some s
  | Tag _ _ (c :: nil) => node_string c
  | Tag _ _ _ => None
  end.

(** [soup.title] *)
Definition soup_title (soup : Soup) : option Node := find (named ["title"]) soup.

(** [soup.find_all('a', href=True)] then [link['href']] *)
Definition anchor_hrefs (soup : Soup) : list string :=
  flat_map (fun n => match attr "href" n with Some h => [h] | None => [] end)
           (find_all (named ["a"]) soup).

Definition has_class (cls : string) (n : Node) : bool :=
  match attr "class" n with
  | Some v => mem cls (split_on " " v)
  | None => false
  end.

(** [soup.select('.result__a')] *)
Definition select_class (cls : string) (soup : Soup) : list Node :=
  find_all (has_class cls) soup.

(** ** Exceptions *)

(** What [client.get] raises by itself: [httpx.TimeoutException],
    [httpx.ConnectError], and [httpx.InvalidURL] / [UnsupportedProtocol] for a
    malformed URL. *)
Inductive TransportError : Type := ReadTimeout | ConnectError | InvalidURL.

Inductive Exn : Type :=
| RequestError (e : TransportError)
| HTTPStatusError (status : Z)      (* response.raise_for_status() *)
| RetryError (last : Exn)           (* tenacity, once it stops retrying *)
| AttributeError.                   (* None.lower() *)

(** The spec's taxonomy of fetch failures (section 7 of the spec): timeouts,
    refused connections, 5xx and 429 are transient; other 4xx and malformed
    URLs are permanent. *)
Definition transient (e : Exn) : bool :=
  match e with
  | RequestError ReadTimeout | RequestError ConnectError => true
  | HTTPStatusError s => ((500 <=? s) && (s <=? 599))%Z || (s =? 429)%Z
  | _ => false
  end.

Definition permanent (e : Exn) : bool :=
  match e with
  | RequestError InvalidURL => true
  | HTTPStatusError s => ((400 <=? s) && (s <=? 499))%Z && negb (s =? 429)%Z
  | _ => false
  end.

(** ** Effects: the outside world and the trace of calls *)

(** What a run leaves behind, in order: each call of [_fetch_page], each
    [client.get], each sleep between two attempts of a fetch (seconds), and
    each politeness sleep of a mode's loop. *)
Inductive Event : Type :=
| FetchCall (url : string)
| Get (url : string)
| Backoff (seconds : Z)
| RateLimit.

Definition Event_eq_dec (a b : Event) : {a = b} + {a <> b}.
Proof. decide equality; first [apply string_dec | apply Z.eq_dec]. Defined.

(** Number of [_fetch_page] calls on [url], and of requests sent to it. *)
Definition fetch_calls (url : string) (tr : list Event) : nat :=
  count_occ Event_eq_dec tr (FetchCall url).

Definition requests (url : string) (tr : list Event) : nat :=
  count_occ Event_eq_dec tr (Get url).

(** The sleeps between attempts, in order. *)
Definition backoffs (tr : list Event) : list Z :=
  flat_map (fun e => match e with Backoff s => [s] | _ => [] end) tr.

(** ** tenacity's policies, as the decorator of [_fetch_page] sets them *)

(** [wait_exponential(multiplier, min, max)]: the wait after attempt
    [attempt_number], [multiplier * 2 ** (attempt_number - 1)] clamped to
    [min .. max]. *)
Definition wait_exponential (multiplier min max : Z) (attempt_number : nat) : Z :=
  Z.max (Z.max 0 min) (Z.min (multiplier * 2 ^ (Z.of_nat attempt_number - 1)) max).

(** [stop_after_attempt(n)] *)
Definition stop_after_attempt (max_attempt_number attempt_number : nat) : bool :=
  (max_attempt_number <=? attempt_number)%nat.

(** [response.is_success]: the status is 2xx.  [raise_for_status()] raises
    on every other status (older httpx: on 4xx and 5xx only). *)
Definition is_success (status : Z) : bool := ((200 <=? status) && (status <=? 299))%Z.

Definition is_error_status (status : Z) : bool := negb (is_success status).

(** [Optional[List[str]]] used as a condition: [None] and [[]] are false. *)
Definition truthy {A : Type} (o : option (list A)) : bool :=
  match o with Some (_ :: _) => true | _ => false end.

Definition or_empty {A : Type} (o : option (list A)) : list A :=
  match o with Some l => l | None => [] end.

Definition exclude_extensions : list string :=
  [".pdf"; ".jpg"; ".png"; ".gif"; ".css"; ".js"; ".zip"].

Definition page_types : list string :=
  ["contact"; "content"; "product"; "pricing"; "page"; "other"].

(** [soup.title.string.lower() if soup.title else ""]: raises when the
    document has a title without a single string. *)
Definition title_lower (soup : Soup) : Exn + string :=
  match soup_title soup with
  | Some t => match node_string t with
              | Some s => inr (lower s)
              | None => inl AttributeError
              end
  | None => inr EmptyString
  end.

(** [_classify_page_type] *)
Definition _classify_page_type (url : string) (soup : Soup) : Exn + string :=
  let url_lower := lower url in
  match title_lower soup with
  | inl e => inl e
  | inr title =>
      if any_in ["contact"; "about"; "team"] url_lower then inr "contact"
      else if any_in ["blog"; "news"; "article"] url_lower then inr "content"
      else if any_in ["product"; "service"; "solution"] url_lower then inr "product"
      else if any_in ["pricing"; "plan"] url_lower then inr "pricing"
      else if endswith url_lower "/" || endswith url_lower ".html" then inr "page"
      else inr "other"
  end.

Record Metadata : Type := {
  title : option string;        (* None: the title tag has no single string *)
  description : string;
  status_code : Z;
  content_type : string;
  content_length : nat
}.

Record SitemapEntry : Type := {
  entry_url : string;
  entry_title : option string;
  entry_depth : nat;
  entry_type : string
}.

(** What [client.get] returns: the status, the headers and [response.text]
    (raw markup of type [Html]). *)
Record Response (Html : Type) : Type := {
  resp_status : Z;
  resp_headers : list (string * string);
  resp_text : Html
}.
Arguments resp_status {Html} _.
Arguments resp_headers {Html} _.
Arguments resp_text {Html} _.

(** ** JSON values and Python dictionaries *)

(** A value as [json.loads] returns it; [Number] stands for Python's numbers,
    of which the engine only asks whether they are zero. *)
Inductive Json (Number : Type) : Type :=
| JNull
| JBool (b : bool)
| JNumber (n : Number)
| JString (s : string)
| JArray (items : list (Json Number))
| JObject (fields : list (string * Json Number)).
Arguments JNull {Number}.
Arguments JBool {Number} b.
Arguments JNumber {Number} n.
Arguments JString {Number} s.
Arguments JArray {Number} items.
Arguments JObject {Number} fields.

(** A value used as a condition. *)
Definition json_truthy {Number : Type} (is_zero : Number -> bool) (v : Json Number) : bool :=
  match v with
  | JNull => false
  | JBool b => b
  | JNumber n => negb (is_zero n)
  | JString s => nonempty s
  | JArray items => match items with [] => false | _ => true end
  | JObject fields => match fields with [] => false | _ => true end
  end.

(** A schema used as a condition, [if extraction_schema:].  Schemas are kept
    as the text [json.dumps] gives for them; a dict is false exactly when it
    is empty, and the empty dict is the text [{}]. *)
Definition schema_truthy (schema : string) : bool := negb (schema =? "{}").

(** A [dict] with string keys: its items in order of insertion, no key twice. *)
Definition Dict (V : Type) : Type := list (string * V).

(** [d.get(k)] *)
Fixpoint dict_get {V : Type} (k : string) (d : Dict V) : option V :=
  match d with
  | [] => None
  | (k', v) :: d' => if k =? k' then Some v else dict_get k d'
  end.

(** [d[k] = v]: the value of a key that is there is replaced where it stands,
    a new key goes to the end. *)
Fixpoint dict_set {V : Type} (k : string) (v : V) (d : Dict V) : Dict V :=
  match d with
  | [] => [(k, v)]
  | (k', v') :: d' => if k =? k' then (k, v) :: d' else (k', v') :: dict_set k v d'
  end.

(** [{**d, **items}] *)
Definition dict_update {V : Type} (d items : Dict V) : Dict V :=
  fold_left (fun acc kv => dict_set (fst kv) (snd kv) acc) items d.

Definition dict_keys {V : Type} (d : Dict V) : list string := map fst d.

(** [k in d] *)
Definition dict_has {V : Type} (k : string) (d : Dict V) : bool :=
  match dict_get k d with Some _ => true | None => false end.

(** What the code above the engine raises by itself, besides what comes up
    from the engine: [{**x}] on a value that is not a mapping, and
    [x.items()] on a value that has no such method. *)
Inductive PyError : Type :=
| EngineError (e : Exn)
| TypeError
| NoItemsError.

(** The search queries of [discover_by_industry]. *)
Definition industry_queries (industry location : string) : list string :=
  [ (industry ++ " companies in " ++ location)%string;
    ("top " ++ industry ++ " businesses " ++ location)%string;
    (industry ++ " startups " ++ location)%string;
    ("best " ++ industry ++ " services " ++ location)%string ].

(** The include patterns of [discover_from_directory]. *)
Definition directory_patterns : list string := ["/company/"; "/business/"; "/listing/"].

Definition is_fetch_call (e : Event) : bool :=
  match e with FetchCall _ => true | _ => false end.

Definition is_request (e : Event) : bool :=
  match e with Get _ => true | _ => false end.

Definition is_rate_limit (e : Event) : bool :=
  match e with RateLimit => true | _ => false end.

(** How many events of a kind a stretch of trace holds. *)
Definition count_events (kind : Event -> bool) (tr : list Event) : nat :=
  List.length (filter kind tr).

(** ** The decision lists of the spec *)

(** The spec's order of the URL filter (section 4.3), first match winning:
    another host, an exclude pattern, the include patterns when supplied, a
    non-content extension, else admission. *)
Definition filter_decision
    (host_differs excluded include_supplied included non_content : bool) : bool :=
  if host_differs then false
  else if excluded then false
  else if include_supplied then included
  else if non_content then false
  else true.

(** A table of rules read top down; the first test that holds gives the label. *)
Fixpoint first_match (rules : list ((string -> bool) * string)) (default s : string)
    : string :=
  match rules with
  | [] => default
  | (test, label) :: rest => if test s then label else first_match rest default s
  end.

(** The page-type rules, in the order of the spec (section 4.6, map mode),
    each read on the lower-cased URL. *)
Definition url_rules : list ((string -> bool) * string) :=
  [ (any_in ["contact"; "about"; "team"], "contact");
    (any_in ["blog"; "news"; "article"], "content");
    (any_in ["product"; "service"; "solution"], "product");
    (any_in ["pricing"; "plan"], "pricing");
    (fun u => endswith u "/" || endswith u ".html", "page") ].

(** The page type as the spec words its last rule: on the path of the URL. *)
Definition spec_page_type (path_of : string -> string) (url : string) : string :=
  first_match
    (firstn 4 url_rules
     ++ [(fun _ => endswith (lower (path_of url)) "/"
                   || endswith (lower (path_of url)) ".html", "page")])
    "other" (lower url).

(** ** A small concrete world, for running the engine on examples

    Sites are tables from URLs to outcomes; documents are given parsed; URLs
    have the shape [scheme://netloc/path?query#fragment]; links are absolute;
    patterns are literal text. *)

Fixpoint after_double_slash (s : string) : string :=
  match s with
  | EmptyString => EmptyString
  | String c s' =>
      if (c =? "/")%char && startswith s' "/" then drop 1 s' else after_double_slash s'
  end.

Fixpoint take_until (stops : list ascii) (s : string) : string :=
  match s with
  | EmptyString => EmptyString
  | String c s' =>
      if existsb (Ascii.eqb c) stops then EmptyString else String c (take_until stops s')
  end.

Fixpoint drop_until (stops : list ascii) (s : string) : string :=
  match s with
  | EmptyString => EmptyString
  | String c s' => if existsb (Ascii.eqb c) stops then s else drop_until stops s'
  end.

(** [urlparse(url).netloc] and [urlparse(url).path] on such URLs. *)
Definition simple_netloc (url : string) : string :=
  take_until ["/"; "?"; "#"]%char (after_double_slash url).

Definition simple_path (url : string) : string :=
  take_until ["?"; "#"]%char
    (drop_until ["/"; "?"; "#"]%char (after_double_slash url)).

Definition absolute_join (base href : string) : string := href.

Definition literal_search (pattern url : string) : bool := contains pattern url.

Definition Site : Type := list (string * (TransportError + Response Soup)).

Fixpoint site_lookup (url : string) (site : Site)
    : option (TransportError + Response Soup) :=
  match site with
  | [] => None
  | (u, r) :: rest => if url =? u then Some r else site_lookup url rest
  end.

Definition respond (status : Z) (body : Soup) : TransportError + Response Soup :=
  inr {| resp_status := status;
         resp_headers := [("content-type", "text/html")];
         resp_text := body |}.

(** A server that answers from the table, and 404 elsewhere. *)
Definition site_get (site : Site) (w : unit) (url : string)
    : (TransportError + Response Soup) * unit :=
  (match site_lookup url site with Some r => r | None => respond 404 [] end, w).

Definition anchor (href : string) : Node :=
  Tag "a" [("href", href)] [NavigableString href].

Definition html_page (ttl : string) (body : list Node) : Soup :=
  [Tag "html" [] [Tag "head" [] [Tag "title" [] [NavigableString ttl]];
                  Tag "body" [] body]].

Definition parsed (s : Soup) : Soup := s.
Definition no_length (s : Soup) : nat := 0.
Definition no_llm (w : unit) (text schema url : string) : string * unit := ("{}", w).

(** A home page linking to three pages of its site and one of another. *)
Definition four_page_site : Site :=
  [("https://a.example/",
    respond 200 (html_page "Home" [anchor "https://a.example/a";
                                   anchor "https://a.example/b";
                                   anchor "https://a.example/c";
                                   anchor "https://b.example/x"]));
   ("https://a.example/a", respond 200 (html_page "A" [anchor "https://a.example/"]));
   ("https://a.example/b", respond 200 (html_page "B" []));
   ("https://a.example/c", respond 200 (html_page "C" []))].

(** A site whose only page is gone, and one that never answers in time. *)
Definition gone_site : Site := [("https://a.example/", respond 404 [])].
Definition slow_site : Site := [("https://a.example/", inl ReadTimeout)].

(** A single page without links. *)
Definition one_page_site : Site :=
  [("https://a.example/", respond 200 (html_page "Home" []))].

(** A seed that the filter would turn down: it ends in [.pdf] and matches the
    exclude pattern [private]. *)
Definition pdf_site : Site :=
  [("https://a.example/private/report.pdf", respond 200 (html_page "Report" []))].

(** A page with a banner and a side bar around its text. *)
Definition banner_page : Soup :=
  [Tag "html" []
     [Tag "body" []
        [Tag "header" [] [NavigableString "Site banner"];
         Tag "nav" [] [NavigableString "Menu"];
         Tag "p" [] [NavigableString "Body text"];
         Tag "aside" [] [NavigableString "Related links"];
         Tag "footer" [] [NavigableString "Imprint"]]]].

(** A page of search results with three hits, the second without a scheme. *)
Definition hit (href : string) : Node :=
  Tag "a" [("class", "result__a"); ("href", href)] [NavigableString href].

Definition search_site : Site :=
  [("https://html.duckduckgo.com/html/?q=leads",
    respond 200 (html_page "leads" [hit "https://a.example/a";
                                    hit "//a.example/b";
                                    hit "https://a.example/c"]));
   ("https://a.example/a", respond 200 (html_page "A" []));
   ("https://a.example/b", respond 200 (html_page "B" []));
   ("https://a.example/c", respond 200 (html_page "C" []))].

(** A page with a link given twice and a link to a part of itself. *)
Definition fragment_site : Site :=
  [("https://a.example/",
    respond 200 (html_page "Home" [anchor "https://a.example/a#top";
                                   anchor "https://a.example/a";
                                   anchor "https://a.example/#menu"]))].

(** A directory with two listings and a page about itself. *)
Definition directory_site : Site :=
  [("https://d.example/",
    respond 200 (html_page "Directory" [anchor "https://d.example/company/acme";
                                        anchor "https://d.example/listing/zen";
                                        anchor "https://d.example/about"]));
   ("https://d.example/company/acme", respond 200 (html_page "Acme" []));
   ("https://d.example/listing/zen", respond 200 (html_page "Zen" []));
   ("https://d.example/about", respond 200 (html_page "About" []))].

(** A model that names a company after the URL of its page, and a reader of
    its records: [{}] is the empty object, any other text a company name. *)
Definition url_llm (w : unit) (text schema url : string) : string * unit := (url, w).

Definition record_loads (s : string) : Json Z :=
  if s =? "{}" then JObject [] else JObject [("company_name", JString s)].

Definition is_zero (n : Z) : bool := (n =? 0)%Z.

(** ** The engine *)

Section Engine.

#[local] Set Default Proof Using "Type".

(** The state of the outside world (network, clock, remote services). *)
Variable World : Type.

(** Raw markup as [response.text] holds it, its length, and
    [BeautifulSoup(html, 'lxml')]. *)
Variable Html : Type.
Variable html_len : Html -> nat.
Variable BeautifulSoup : Html -> Soup.

(** [await self.client.get(url)]: a response, or the exception httpx raises. *)
Variable http_get : World -> string -> (TransportError + Response Html) * World.

(** [urlparse(url).netloc], [urlparse(url).path], [urljoin(base, href)] and
    [re.search(pattern, url)] as a condition (patterns are taken to compile). *)
Variable netloc : string -> string.
Variable url_path : string -> string.
Variable urljoin : string -> string -> string.
Variable re_search : string -> string -> bool.

(** [_llm_extract(text, schema, url)]: the call to the language model.  The
    method catches every exception and returns a record either way; records
    and schemas are kept as serialized JSON. *)
Variable llm_extract : World -> string -> string -> string -> string * World.
Variable lead_schema : string.

(** [settings.MAX_CONCURRENT_SCRAPES] *)
Variable MAX_CONCURRENT_SCRAPES : nat.

Record Env : Type := { world : World; trace : list Event }.

(** Computations that read and change the environment and may raise. *)
Definition M (A : Type) : Type := Env -> (Exn + A) * Env.

Definition ret {A : Type} (a : A) : M A := fun env => (inr a, env).

Definition bind {A B : Type} (c : M A) (k : A -> M B) : M B :=
  fun env => match c env with
             | (inr a, env') => k a env'
             | (inl e, env') => (inl e, env')
             end.

Definition raise {A : Type} (e : Exn) : M A := fun env => (inl e, env).

(** [try: c  except Exception as e: handler(e)] *)
Definition try_except {A : Type} (c : M A) (handler : Exn -> M A) : M A :=
  fun env => match c env with
             | (inr a, env') => (inr a, env')
             | (inl e, env') => handler e env'
             end.

Definition log (ev : Event) : M unit :=
  fun env => (inr tt, {| world := world env; trace := trace env ++ [ev] |}).

Notation "x <- c ;; k" := (bind c (fun x => k))
  (at level 61, c at next level, right associativity).
Notation "c ;;; k" := (bind c (fun _ => k))
  (at level 61, right associativity).

(** [while continues(state): state = body(state)], run for at most [fuel]
    turns: [None] when [fuel] turns do not end the loop. *)
Fixpoint while_loop {State : Type} (fuel : nat) (continues : State -> bool)
    (body : State -> Env -> State * Env) (st : State) (env : Env)
    : option (State * Env) :=
  if continues st then
    match fuel with
    | O => None
    | S fuel' => let (st', env') := body st env in
                 while_loop fuel' continues body st' env'
    end
  else Some (st, env).

(** *** The fetcher *)

Definition client_get (url : string) : M (Response Html) :=
  fun env =>
    let (r, w) := http_get (world env) url in
    let env' := {| world := w; trace := trace env ++ [Get url] |} in
    match r with
    | inl e => (inl (RequestError e), env')
    | inr response => (inr response, env')
    end.

Definition raise_for_status (response : Response Html) : M unit :=
  if is_error_status (resp_status response)
  then raise (HTTPStatusError (resp_status response))
  else ret tt.

Definition is_meta_description (n : Node) : bool :=
  named ["meta"] n &&
  match attr "name" n with Some v => v =? "description" | None => false end.

(** The body of [_fetch_page]: one attempt. *)
Definition fetch_attempt (url : string) : M (Html * Metadata) :=
  response <- client_get url ;;
  raise_for_status response ;;;
  let html := resp_text response in
  let soup := BeautifulSoup html in
  let meta_desc := find is_meta_description soup in
  ret (html,
       {| title := match soup_title soup with
                   | Some t => node_string t
                   | None => Some EmptyString
                   end;
          description := match meta_desc with
                         | Some m => match attr "content" m with
                                     | Some c => c
                                     | None => EmptyString
                                     end
                         | None => EmptyString
                         end;
          status_code := resp_status response;
          content_type := match lookup "content-type" (resp_headers response) with
                          | Some c => c
                          | None => EmptyString
                          end;
          content_length := html_len html |}).

(** [@retry(stop=stop, wait=wait)]: run [fn]; on any exception, stop with
    [RetryError] if [stop] says so after this attempt, else sleep [wait] and
    try again.  [remaining] bounds the attempts still allowed (the decorator
    of [_fetch_page] stops after a fixed number). *)
Fixpoint retrying {A : Type} (stop : nat -> bool) (wait : nat -> Z)
    (remaining attempt_number : nat) (fn : M A) : M A :=
  fun env =>
    match fn env with
    | (inr a, env') => (inr a, env')
    | (inl e, env') =>
        match remaining with
        | O => (inl (RetryError e), env')
        | S remaining' =>
            if stop attempt_number then (inl (RetryError e), env')
            else (log (Backoff (wait attempt_number)) ;;;
                  retrying stop wait remaining' (S attempt_number) fn) env'
        end
    end.

(** [retry(stop=stop_after_attempt(n), wait=wait)] *)
Definition retry {A : Type} (n : nat) (wait : nat -> Z) (fn : M A) : M A :=
  retrying (stop_after_attempt n) wait n 1 fn.

(** [_fetch_page], decorated with
    [@retry(stop=stop_after_attempt(3), wait=wait_exponential(multiplier=1, min=2, max=10))] *)
Definition _fetch_page (url : string) : M (Html * Metadata) :=
  log (FetchCall url) ;;;
  retry 3 (wait_exponential 1 2 10) (fetch_attempt url).

(** *** The normalizer *)

Definition _html_to_markdown (html : Html) : string :=
  let soup := BeautifulSoup html in
  let soup := decompose_all ["script"; "style"; "nav"; "footer"; "header"; "aside"] soup in
  let text := get_text newline soup in
  let lines := map strip (filter (fun line => nonempty (strip line))
                                 (split_on newline_char text)) in
  String.concat (newline ++ newline)%string lines.

Definition _extract_text (html : Html) : string :=
  let soup := BeautifulSoup html in
  let soup := decompose_all ["script"; "style"; "nav"; "footer"] soup in
  get_text " " soup.

(** *** The URL filter *)

(** [for pattern in patterns: if re.search(pattern, url): return ...]: whether
    the loop returns. *)
Fixpoint search_any (patterns : list string) (url : string) : bool :=
  match patterns with
  | [] => false
  | pattern :: rest => if re_search pattern url then true else search_any rest url
  end.

Definition _should_crawl (url base_domain : string)
    (include_patterns exclude_patterns : option (list string)) : bool :=
  if negb (netloc url =? base_domain) then false
  else if truthy exclude_patterns && search_any (or_empty exclude_patterns) url then false
  else if truthy include_patterns then
         (if search_any (or_empty include_patterns) url then true else false)
  else if existsb (fun ext => endswith (lower url) ext) exclude_extensions then false
  else true.

(** [_get_url_depth] *)
Definition _get_url_depth (url base_url : string) : nat :=
  let base_path := rstrip_slash (url_path base_url) in
  let url_path0 := rstrip_slash (url_path url) in
  let url_path1 := if nonempty base_path then remove_first base_path url_path0 else url_path0 in
  List.length (filter nonempty (split_on "/" url_path1)).

(** *** Single mode *)

Record Content : Type := {
  markdown : option string;
  text : string;
  raw_html : option Html
}.

(** The dictionary a scrape returns: the one with ["success": True] (to which
    [_crawl_page] adds ["links"]) or the one with ["success": False] and
    ["error"].  The fresh [job_id] and the timestamp are left out. *)
Inductive ScrapeResult : Type :=
| Scraped (url : string) (metadata : Metadata) (content : Content)
          (extracted_data : option string) (lead_info : string)
          (links : option (list string))
| ScrapeFailed (url : string) (error : Exn).

(** [result.get("success")], [result["url"]], [result.get("links", [])] *)
Definition success (r : ScrapeResult) : bool :=
  match r with Scraped _ _ _ _ _ _ => true | ScrapeFailed _ _ => false end.

Definition result_url (r : ScrapeResult) : string :=
  match r with Scraped u _ _ _ _ _ => u | ScrapeFailed u _ => u end.

Definition result_links (r : ScrapeResult) : list string :=
  match r with Scraped _ _ _ _ _ (Some l) => l | _ => [] end.

Definition result_error (r : ScrapeResult) : option Exn :=
  match r with Scraped _ _ _ _ _ _ => None | ScrapeFailed _ e => Some e end.

(** [result.get("extracted_data")] *)
Definition result_extracted (r : ScrapeResult) : option string :=
  match r with Scraped _ _ _ x _ _ => x | ScrapeFailed _ _ => None end.

Definition set_links (r : ScrapeResult) (l : list string) : ScrapeResult :=
  match r with
  | Scraped u m c x i _ => Scraped u m c x i (Some l)
  | ScrapeFailed u e => ScrapeFailed u e
  end.

Definition _llm_extract (text schema url : string) : M string :=
  fun env =>
    let (record, w) := llm_extract (world env) (substring 0 8000 text) schema url in
    (inr record, {| world := w; trace := trace env |}).

Definition _extract_lead_info (text url : string) : M string :=
  _llm_extract text lead_schema url.

Definition scrape_single (url : string) (extraction_schema : option string)
    (include_raw clean_content : bool) : M ScrapeResult :=
  try_except
    (fetched <- _fetch_page url ;;
     let html := fst fetched in
     let metadata := snd fetched in
     let markdown := if clean_content then Some (_html_to_markdown html) else None in
     let text := _extract_text html in
     extracted_data <- match extraction_schema with
                       | Some schema =>
                           if schema_truthy schema
                           then (d <- _llm_extract text schema url ;; ret (Some d))
                           else ret None
                       | None => ret None
                       end ;;
     lead_data <- _extract_lead_info text url ;;
     ret (Scraped url metadata
            {| markdown := markdown;
               text := substring 0 10000 text;
               raw_html := if include_raw then Some html else None |}
            extracted_data lead_data None))
    (fun e => ret (ScrapeFailed url e)).

(** *** Crawl mode *)

Definition page_links (url : string) (html : Html) : list string :=
  list_set (map (fun href => before_hash (urljoin url href))
                (anchor_hrefs (BeautifulSoup html))).

Definition _crawl_page (url : string) (schema : option string) : M ScrapeResult :=
  result <- scrape_single url schema false true ;;
  if success result then
    links <- try_except
               (fetched <- _fetch_page url ;; ret (page_links url (fst fetched)))
               (fun _ => ret []) ;;
    ret (set_links result links)
  else ret result.

Record CrawlState : Type := {
  queue : list string;
  visited_urls : list string;      (* the set [self.visited_urls], in order of insertion *)
  results : list ScrapeResult
}.

(** [for url in batch: if url not in self.visited_urls: ...add(url); tasks.append(...)]:
    the URLs that get a task, and the set afterwards. *)
Fixpoint schedule (batch visited : list string) : list string * list string :=
  match batch with
  | [] => ([], visited)
  | url :: rest =>
      if mem url visited then schedule rest visited
      else let (tasks, visited') := schedule rest (visited ++ [url]) in
           (url :: tasks, visited')
  end.

(** [asyncio.gather] over the tasks, with [return_exceptions=True]: the outcomes in
    the order of the tasks (the model runs the tasks one after the other). *)
Fixpoint gather {A : Type} (tasks : list (M A)) (env : Env) : list (Exn + A) * Env :=
  match tasks with
  | [] => ([], env)
  | t :: ts =>
      let (r, env1) := t env in
      let (rs, env2) := gather ts env1 in
      (r :: rs, env2)
  end.

(** [for link in result.get("links", []): if self._should_crawl(...):
      if link not in self.visited_urls: queue.append(link)] *)
Definition enqueue_links (links : list string) (base_domain : string)
    (include_patterns exclude_patterns : option (list string))
    (visited queue : list string) : list string :=
  fold_left (fun q link =>
               if _should_crawl link base_domain include_patterns exclude_patterns
               then (if negb (mem link visited) then q ++ [link] else q)
               else q)
            links queue.

(** The body of [for result in batch_results] (without a progress callback). *)
Definition collect (base_domain : string)
    (include_patterns exclude_patterns : option (list string))
    (st : CrawlState) (result : Exn + ScrapeResult) : CrawlState :=
  match result with
  | inr r =>
      if success r then
        {| queue := enqueue_links (result_links r) base_domain include_patterns
                      exclude_patterns (visited_urls st) (queue st);
           visited_urls := visited_urls st;
           results := results st ++ [r] |}
      else st
  | inl _ => st
  end.

(** One turn of the [while] loop of [crawl_site]. *)
Definition crawl_iteration (base_domain : string) (extraction_schema : option string)
    (include_patterns exclude_patterns : option (list string))
    (st : CrawlState) (env : Env) : CrawlState * Env :=
  let batch := firstn MAX_CONCURRENT_SCRAPES (queue st) in
  let queue' := skipn MAX_CONCURRENT_SCRAPES (queue st) in
  let (tasks, visited') := schedule batch (visited_urls st) in
  let (batch_results, env1) :=
    gather (map (fun url => _crawl_page url extraction_schema) tasks) env in
  let st' := fold_left (collect base_domain include_patterns exclude_patterns)
               batch_results
               {| queue := queue'; visited_urls := visited'; results := results st |} in
  (st', snd (log RateLimit env1)).

(** [queue and len(results) < max_pages] *)
Definition crawl_continues (max_pages : Z) (st : CrawlState) : bool :=
  match queue st with
  | [] => false
  | _ :: _ => (Z.of_nat (List.length (results st)) <? max_pages)%Z
  end.

(** The [while] loop of [crawl_site]. *)
Definition crawl_loop (fuel : nat) (max_pages : Z) (base_domain : string)
    (extraction_schema : option string)
    (include_patterns exclude_patterns : option (list string))
    (st : CrawlState) (env : Env) : option (CrawlState * Env) :=
  while_loop fuel (crawl_continues max_pages)
    (crawl_iteration base_domain extraction_schema include_patterns exclude_patterns)
    st env.

Record CrawlPayload : Type := {
  crawl_success : bool;
  start_url : string;
  pages_crawled : nat;
  crawl_results : list ScrapeResult
}.

(** The state [crawl_site] starts its loop from. *)
Definition crawl_start (start_url : string) : CrawlState :=
  {| queue := [start_url]; visited_urls := []; results := [] |}.

(** The run of [crawl_site] up to the end of its loop. *)
Definition crawl_run (fuel : nat) (start_url : string) (max_pages : Z)
    (extraction_schema : option string)
    (include_patterns exclude_patterns : option (list string))
    (env : Env) : option (CrawlState * Env) :=
  crawl_loop fuel max_pages (netloc start_url) extraction_schema
    include_patterns exclude_patterns (crawl_start start_url) env.

Definition crawl_site (fuel : nat) (start_url : string) (max_pages : Z)
    (extraction_schema : option string)
    (include_patterns exclude_patterns : option (list string))
    (env : Env) : option (CrawlPayload * Env) :=
  match crawl_run fuel start_url max_pages extraction_schema
          include_patterns exclude_patterns env with
  | Some (st, env') =>
      Some ({| crawl_success := true;
               start_url := start_url;
               pages_crawled := List.length (results st);
               crawl_results := results st |}, env')
  | None => None
  end.

(** *** Map mode *)

Record MapState : Type := {
  map_queue : list string;
  map_visited : list string;
  site_map : list SitemapEntry
}.

Definition lift {A : Type} (r : Exn + A) : M A := fun env => (r, env).

(** The [try] block of [map_site] up to [site_map.append(page_info)]. *)
Definition map_page (url current_url : string) : M (SitemapEntry * Soup) :=
  fetched <- _fetch_page current_url ;;
  let soup := BeautifulSoup (fst fetched) in
  page_type <- lift (_classify_page_type current_url soup) ;;
  ret ({| entry_url := current_url;
          entry_title := title (snd fetched);
          entry_depth := _get_url_depth current_url url;
          entry_type := page_type |}, soup).

(** [for link in soup.find_all('a', href=True): href = urljoin(current_url, link['href']);
      if urlparse(href).netloc == base_domain and href not in self.visited_urls:
        queue.append(href.split('#')[0])] *)
Definition map_links (current_url base_domain : string) (soup : Soup)
    (visited queue : list string) : list string :=
  fold_left (fun q link =>
               let href := urljoin current_url link in
               if (netloc href =? base_domain) && negb (mem href visited)
               then q ++ [before_hash href] else q)
            (anchor_hrefs soup) queue.

(** One turn of the [while] loop of [map_site]. *)
Definition map_iteration (url base_domain : string) (st : MapState) (env : Env)
    : MapState * Env :=
  match map_queue st with
  | [] => (st, env)
  | current_url :: rest =>
      if mem current_url (map_visited st)
      then ({| map_queue := rest; map_visited := map_visited st;
               site_map := site_map st |}, env)
      else
        let visited' := map_visited st ++ [current_url] in
        match map_page url current_url env with
        | (inr (page_info, soup), env1) =>
            ({| map_queue := map_links current_url base_domain soup visited' rest;
                map_visited := visited';
                site_map := site_map st ++ [page_info] |},
             snd (log RateLimit env1))
        | (inl _, env1) =>
            ({| map_queue := rest; map_visited := visited';
                site_map := site_map st |}, env1)
        end
  end.

Definition map_continues (max_pages : Z) (st : MapState) : bool :=
  match map_queue st with
  | [] => false
  | _ :: _ => (Z.of_nat (List.length (site_map st)) <? max_pages)%Z
  end.

Definition map_loop (fuel : nat) (max_pages : Z) (url base_domain : string)
    (st : MapState) (env : Env) : option (MapState * Env) :=
  while_loop fuel (map_continues max_pages) (map_iteration url base_domain) st env.

Record MapPayload : Type := {
  map_success : bool;
  map_url : string;
  total_pages : nat;
  sitemap : list SitemapEntry
}.

Definition map_start (url : string) : MapState :=
  {| map_queue := [url]; map_visited := []; site_map := [] |}.

Definition map_run (fuel : nat) (url : string) (max_pages : Z) (env : Env)
    : option (MapState * Env) :=
  map_loop fuel max_pages url (netloc url) (map_start url) env.

Definition map_site (fuel : nat) (url : string) (max_pages : Z) (env : Env)
    : option (MapPayload * Env) :=
  match map_run fuel url max_pages env with
  | Some (st, env') =>
      Some ({| map_success := true;
               map_url := url;
               total_pages := List.length (site_map st);
               sitemap := site_map st |}, env')
  | None => None
  end.

(** *** Search mode *)

Inductive SearchPayload : Type :=
| SearchCompleted (query : string) (results_found : nat) (found : list ScrapeResult)
| SearchFailed (query : string) (error : Exn).

Definition search_success (p : SearchPayload) : bool :=
  match p with SearchCompleted _ _ _ => true | SearchFailed _ _ => false end.

(** [for result in soup.select('.result__a')[:num_results]: ...] *)
Fixpoint scrape_hits (hits : list Node) (extraction_schema : option string)
    (found : list ScrapeResult) : M (list ScrapeResult) :=
  match hits with
  | [] => ret found
  | result :: rest =>
      let url := match attr "href" result with Some h => h | None => EmptyString end in
      let url := if startswith url "//" then ("https:" ++ url)%string else url in
      scraped <- scrape_single url extraction_schema true true ;;
      let found := if success scraped then found ++ [scraped] else found in
      log RateLimit ;;;
      scrape_hits rest extraction_schema found
  end.

Definition search_and_scrape (query : string) (num_results : Z)
    (extraction_schema : option string) : M SearchPayload :=
  let search_url := ("https://html.duckduckgo.com/html/?q=" ++ query)%string in
  try_except
    (fetched <- _fetch_page search_url ;;
     let soup := BeautifulSoup (fst fetched) in
     found <- scrape_hits (slice_to num_results (select_class "result__a" soup))
                extraction_schema [] ;;
     ret (SearchCompleted query (List.length found) found))
    (fun e => ret (SearchFailed query e)).

(** *** Lead discovery ([LeadDiscoveryEngine]) *)

(** Python's numbers and [json.loads] on a serialized record. *)
Variable Number : Type.
Variable number_is_zero : Number -> bool.
Variable json_loads : string -> Json Number.

(** [_generate_insights(lead_data)]: the call to the language model; the
    method returns the parsed answer, or [{}] on any exception. *)
Variable generate_insights : World -> Dict (Json Number) -> Json Number * World.

Definition Lead : Type := Dict (Json Number).

Definition truthy_value (v : Json Number) : bool := json_truthy number_is_zero v.

(** [d.get(k)] used as a condition. *)
Definition get_truthy (k : string) (d : Lead) : bool :=
  match dict_get k d with Some v => truthy_value v | None => false end.

(** Computations above the engine: they may raise a [PyError]. *)
Definition L (A : Type) : Type := Env -> (PyError + A) * Env.

(** [r.get("lead_info")], as Python holds it. *)
Definition result_lead_info (r : ScrapeResult) : option (Json Number) :=
  match r with
  | Scraped _ _ _ _ record _ => Some (json_loads record)
  | ScrapeFailed _ _ => None
  end.

(** [for r in result.get("results", []): if r.get("lead_info"):
      all_leads.append({"source_url": r.get("url"), "source_query": query,
                        **r.get("lead_info", {})})] *)
Fixpoint collect_leads (query : string) (found : list ScrapeResult)
    (all_leads : list Lead) : PyError + list Lead :=
  match found with
  | [] => inr all_leads
  | r :: rest =>
      match result_lead_info r with
      | Some info =>
          if truthy_value info then
            match info with
            | JObject fields =>
                collect_leads query rest
                  (all_leads ++
                   [dict_update [("source_url", JString (result_url r));
                                 ("source_query", JString query)] fields])
            | _ => inl TypeError
            end
          else collect_leads query rest all_leads
      | None => collect_leads query rest all_leads
      end
  end.

(** [for query in queries: ...] of [discover_by_industry]. *)
Fixpoint discover_queries (queries : list string) (num_results : nat)
    (all_leads : list Lead) : L (list Lead) :=
  fun env =>
    match queries with
    | [] => (inr all_leads, env)
    | query :: rest =>
        match search_and_scrape query (Z.of_nat num_results) None env with
        | (inl e, env') => (inl (EngineError e), env')
        | (inr (SearchCompleted _ _ found), env') =>
            match collect_leads query found all_leads with
            | inl e => (inl e, env')
            | inr leads => discover_queries rest num_results leads env'
            end
        | (inr (SearchFailed _ _), env') =>
            discover_queries rest num_results all_leads env'
        end
    end.

(** [discover_by_industry], for a number of leads that is not negative. *)
Definition discover_by_industry (industry location : string) (num_leads : nat)
    : L (list Lead) :=
  fun env =>
    let queries := industry_queries industry location in
    match discover_queries queries (num_leads / List.length queries) [] env with
    | (inr all_leads, env') => (inr (firstn num_leads all_leads), env')
    | (inl e, env') => (inl e, env')
    end.

(** [for page in crawl_result.get("results", []): if page.get("lead_info"):
      leads.append(page["lead_info"])] *)
Definition page_leads (pages : list ScrapeResult) : list (Json Number) :=
  flat_map (fun page => match result_lead_info page with
                        | Some info => if truthy_value info then [info] else []
                        | None => []
                        end) pages.

(** [discover_from_directory] *)
Definition discover_from_directory (fuel : nat) (directory_url : string)
    (max_listings : Z) (env : Env) : option (list (Json Number) * Env) :=
  match crawl_site fuel directory_url max_listings None (Some directory_patterns) None env with
  | Some (crawl_result, env') => Some (page_leads (crawl_results crawl_result), env')
  | None => None
  end.

(** [for key, value in result["lead_info"].items():
      if value and not lead_data.get(key): lead_data[key] = value] *)
Fixpoint merge_lead_info (items : Dict (Json Number)) (lead_data : Lead) : Lead :=
  match items with
  | [] => lead_data
  | (key, value) :: rest =>
      merge_lead_info rest
        (if truthy_value value && negb (get_truthy key lead_data)
         then dict_set key value lead_data
         else lead_data)
  end.

(** [str(value)]: the text by which the trace names an argument of
    [_fetch_page] that is no string. *)
Variable value_text : Json Number -> string.

(** [scrape_single] on a website that is no string: [_fetch_page] is called
    once and calls [client.get] three times, with its two sleeps in between;
    each call raises before anything is sent, so the world stays as it is and
    the scrape fails. *)
Definition scrape_non_string (website : Json Number) : Env -> Env :=
  fun env =>
    let url := value_text website in
    snd ((log (FetchCall url) ;;;
          log (Get url) ;;;
          log (Backoff (wait_exponential 1 2 10 1)) ;;;
          log (Get url) ;;;
          log (Backoff (wait_exponential 1 2 10 2)) ;;;
          log (Get url)) env).

(** The first half of [enrich_lead]: the website, when there is one, is
    scraped and what it says of the lead fills the fields that are empty. *)
Definition enrich_from_website (lead_data : Lead) : L Lead :=
  fun env =>
    match dict_get "website" lead_data with
    | Some website =>
        if truthy_value website then
          match website with
          | JString url =>
              match scrape_single url None true true env with
              | (inl e, env') => (inl (EngineError e), env')
              | (inr result, env') =>
                  match result_lead_info result with
                  | Some info =>
                      if truthy_value info then
                        match info with
                        | JObject fields => (inr (merge_lead_info fields lead_data), env')
                        | _ => (inl NoItemsError, env')
                        end
                      else (inr lead_data, env')
                  | None => (inr lead_data, env')
                  end
              end
          | _ => (inr lead_data, scrape_non_string website env)
          end
        else (inr lead_data, env)
    | None => (inr lead_data, env)
    end.

(** [enrich_lead] of [LeadDiscoveryEngine] *)
Definition enrich_lead (lead_data : Lead) : L Lead :=
  fun env =>
    match enrich_from_website lead_data env with
    | (inl e, env') => (inl e, env')
    | (inr lead_data', env') =>
        let (insights, w) := generate_insights (world env') lead_data' in
        (inr (dict_set "ai_insights" insights lead_data'),
         {| world := w; trace := trace env' |})
    end.

(** *** What each attempt meets *)

(** The exception an attempt ends in, given what [client.get] meets. *)
Definition outcome_error (r : TransportError + Response Html) : option Exn :=
  match r with
  | inl e => Some (RequestError e)
  | inr response =>
      if is_error_status (resp_status response)
      then Some (HTTPStatusError (resp_status response))
      else None
  end.

(** Every request to [url] fails, whatever the state of the world. *)
Definition always_fails (url : string) : Prop :=
  forall w, exists e, outcome_error (fst (http_get w url)) = Some e.

(** Every request to [url] fails with a transient error. *)
Definition fails_transiently (url : string) : Prop :=
  forall w, exists e,
    outcome_error (fst (http_get w url)) = Some e /\ transient e = true.

(** A URL taken from a link of the seed's host: the link itself (crawl mode)
    or the link without its fragment (map mode). *)
Definition from_host (base_domain url : string) : Prop :=
  exists href, netloc href = base_domain /\ (url = href \/ url = before_hash href).

(** A stretch of trace without any call of [_fetch_page]. *)
Definition quiet (t : list Event) : Prop := forall u, fetch_calls u t = 0.

(** The test a link passes to be appended to the queue. *)
Definition enqueued (base_domain : string)
    (include_patterns exclude_patterns : option (list string))
    (visited : list string) (link : string) : bool :=
  _should_crawl link base_domain include_patterns exclude_patterns
  && negb (mem link visited).

(** The state and the environment [st], [env] continue [st0], [env0]: the set,
    the results and the trace have only grown. *)
Definition extends (st0 : CrawlState) (env0 : Env) (st : CrawlState) (env : Env) : Prop :=
  (exists v, visited_urls st = visited_urls st0 ++ v) /\
  (exists rs, results st = results st0 ++ rs) /\
  (exists t, trace env = trace env0 ++ t).

(** A URL that may stand in the queue: the seed, or a link the filter let in. *)
Definition seed_or_filtered (seed base : string) (inc exc : option (list string))
    (u : string) : Prop :=
  u = seed \/ _should_crawl u base inc exc = true.

(** What every turn of the crawl keeps: the set holds no URL twice, the
    results are successes for distinct URLs of the set, and the set and the
    queue hold the seed and filtered links only. *)
Definition crawl_results_invariant (seed base : string) (inc exc : option (list string))
    (st : CrawlState) : Prop :=
  NoDup (visited_urls st) /\
  incl (map result_url (results st)) (visited_urls st) /\
  NoDup (map result_url (results st)) /\
  Forall (fun r => success r = true) (results st) /\
  Forall (seed_or_filtered seed base inc exc) (visited_urls st ++ queue st).

(** What every turn of [map_site] keeps: the set holds no URL twice, and the
    entries are for distinct URLs of the set, each with its depth below the
    seed. *)
Definition sitemap_invariant (url : string) (st : MapState) : Prop :=
  NoDup (map_visited st) /\
  incl (map entry_url (site_map st)) (map_visited st) /\
  NoDup (map entry_url (site_map st)) /\
  Forall (fun e => entry_depth e = _get_url_depth (entry_url e) url) (site_map st).

(** A lead of [discover_by_industry] says where it comes from. *)
Definition has_source (lead : Lead) : Prop :=
  dict_has "source_url" lead = true /\ dict_has "source_query" lead = true.

(** * Properties *)

(** ** The URL filter *)

Lemma search_any_existsb (patterns : list string) (url : string) :
  search_any patterns url = existsb (fun p => re_search p url) patterns.
Proof.
  induction patterns as [|p ps IH]; simpl; [reflexivity|].
  rewrite IH. destruct (re_search p url); reflexivity.
Qed.

Lemma truthy_or_empty (o : option (list string)) (f : string -> bool) :
  truthy o && existsb f (or_empty o) = existsb f (or_empty o).
Proof. destruct o as [[|x l]|]; reflexivity. Qed.

Lemma should_crawl_same_host (url base_domain : string)
    (include_patterns exclude_patterns : option (list string)) :
  _should_crawl url base_domain include_patterns exclude_patterns = true ->
  netloc url = base_domain.
Proof.
  unfold _should_crawl. destruct (netloc url =? base_domain) eqn:E; simpl.
  - intros _. now apply String.eqb_eq.
  - discriminate.
Qed.

(** C5.  [_should_crawl] decides in the order of the spec, first match
    winning: (1) another host rejects; (2) a matching exclude pattern rejects;
    (3) with include patterns supplied, the URL is admitted exactly when one
    of them matches; (4) without them, a non-content extension rejects;
    (5) else the URL is admitted.  Hence a URL that matches an include and an
    exclude pattern is rejected. *)
Theorem should_crawl_decision_order :
  forall (url base_domain : string) (include_patterns exclude_patterns : option (list string)),
    _should_crawl url base_domain include_patterns exclude_patterns =
      filter_decision
        (negb (netloc url =? base_domain))
        (existsb (fun p => re_search p url) (or_empty exclude_patterns))
        (truthy include_patterns)
        (existsb (fun p => re_search p url) (or_empty include_patterns))
        (existsb (fun ext => endswith (lower url) ext) exclude_extensions)
    /\ (existsb (fun p => re_search p url) (or_empty include_patterns)
        && existsb (fun p => re_search p url) (or_empty exclude_patterns) = true ->
        _should_crawl url base_domain include_patterns exclude_patterns = false).
Proof.
  intros url base inc exc.
  assert (E : _should_crawl url base inc exc =
              filter_decision
                (negb (netloc url =? base))
                (existsb (fun p => re_search p url) (or_empty exc))
                (truthy inc)
                (existsb (fun p => re_search p url) (or_empty inc))
                (existsb (fun ext => endswith (lower url) ext) exclude_extensions)).
  { unfold _should_crawl, filter_decision.
    rewrite !search_any_existsb, truthy_or_empty.
    destruct (negb (netloc url =? base)); [reflexivity|].
    destruct (existsb _ (or_empty exc)); [reflexivity|].
    destruct (truthy inc); [|reflexivity].
    destruct (existsb _ (or_empty inc)); reflexivity. }
  split; [exact E|].
  intros H. rewrite E. apply andb_true_iff in H. destruct H as [_ Hx].
  unfold filter_decision. rewrite Hx.
  destruct (negb (netloc url =? base)); reflexivity.
Qed.

(** ** Page types *)

Lemma first_match_url_rules_in_page_types (s : string) :
  In (first_match url_rules "other" s) page_types.
Proof.
  unfold url_rules, page_types. cbn [first_match].
  repeat (destruct (any_in _ s); [simpl; auto 10|]).
  destruct (endswith s "/" || endswith s ".html"); simpl; auto 10.
Qed.

Lemma classify_page_type_eq (url : string) (soup : Soup) :
  _classify_page_type url soup =
    match title_lower soup with
    | inl e => inl e
    | inr _ => inr (first_match url_rules "other" (lower url))
    end.
Proof.
  unfold _classify_page_type. destruct (title_lower soup) as [e|t]; [reflexivity|].
  unfold url_rules. cbn [first_match].
  repeat (destruct (any_in _ (lower url)); [reflexivity|]).
  destruct (endswith (lower url) "/" || endswith (lower url) ".html"); reflexivity.
Qed.

Lemma classify_page_type_in_enum (url : string) (soup : Soup) (t : string) :
  _classify_page_type url soup = inr t -> In t page_types.
Proof.
  rewrite classify_page_type_eq. destruct (title_lower soup); [discriminate|].
  intros H. injection H as <-. apply first_match_url_rules_in_page_types.
Qed.

(** ** The fetcher *)

Lemma requests_app (u : string) (a b : list Event) :
  requests u (a ++ b) = requests u a + requests u b.
Proof. unfold requests. apply count_occ_app. Qed.

Lemma fetch_calls_app (u : string) (a b : list Event) :
  fetch_calls u (a ++ b) = fetch_calls u a + fetch_calls u b.
Proof. unfold fetch_calls. apply count_occ_app. Qed.

(** An attempt sends one request and leaves nothing else in the trace. *)
Lemma fetch_attempt_trace (url : string) (env : Env) :
  trace (snd (fetch_attempt url env)) = trace env ++ [Get url].
Proof.
  unfold fetch_attempt, bind, client_get, raise_for_status, raise, ret.
  destruct (http_get (world env) url) as [[e|response] w]; simpl; [reflexivity|].
  destruct (is_error_status (resp_status response)); reflexivity.
Qed.

(** An attempt raises exactly what [outcome_error] says. *)
Lemma fetch_attempt_fails (url : string) (env : Env) (e : Exn) :
  outcome_error (fst (http_get (world env) url)) = Some e ->
  fst (fetch_attempt url env) = inl e.
Proof.
  unfold fetch_attempt, bind, client_get, raise_for_status, raise, ret, outcome_error.
  destruct (http_get (world env) url) as [[t|response] w]; simpl.
  - intros H. injection H as <-. reflexivity.
  - destruct (is_error_status (resp_status response)); simpl; [|discriminate].
    intros H. injection H as <-. reflexivity.
Qed.

(** The waits of [wait_exponential] never shrink from one attempt to the next. *)
Lemma wait_exponential_monotone (multiplier min max : Z) (attempt_number : nat) :
  (0 <= multiplier)%Z ->
  (wait_exponential multiplier min max attempt_number
   <= wait_exponential multiplier min max (S attempt_number))%Z.
Proof.
  intros Hm. unfold wait_exponential.
  assert (H : (2 ^ (Z.of_nat attempt_number - 1) <= 2 ^ (Z.of_nat (S attempt_number) - 1))%Z).
  { destruct attempt_number as [|n].
    - simpl. lia.
    - apply Z.pow_le_mono_r; lia. }
  assert (H' : (multiplier * 2 ^ (Z.of_nat attempt_number - 1)
                <= multiplier * 2 ^ (Z.of_nat (S attempt_number) - 1))%Z) by nia.
  lia.
Qed.

(** When every attempt on [url] fails with an exception that satisfies [P],
    [_fetch_page] sends three requests, sleeps after the first and after the
    second, and raises [RetryError] around the last exception. *)
Lemma fetch_page_exhausts (P : Exn -> Prop) (url : string) :
  (forall w, exists e, outcome_error (fst (http_get w url)) = Some e /\ P e) ->
  forall env, exists cause env',
    _fetch_page url env = (inl (RetryError cause), env') /\ P cause /\
    trace env' = trace env ++
      [FetchCall url; Get url; Backoff (wait_exponential 1 2 10 1);
       Get url; Backoff (wait_exponential 1 2 10 2); Get url].
Proof.
  intros Hfail env.
  unfold _fetch_page, retry, bind at 1. unfold log at 1. cbn [retrying].
  set (env0 := {| world := world env; trace := trace env ++ [FetchCall url] |}).
  destruct (Hfail (world env0)) as (e1 & He1 & _).
  pose proof (fetch_attempt_fails url env0 e1 He1) as F1.
  pose proof (fetch_attempt_trace url env0) as T1.
  destruct (fetch_attempt url env0) as [r1 env1]. simpl in F1, T1. subst r1.
  cbn [stop_after_attempt Nat.leb]. unfold bind at 1. unfold log at 1.
  set (env1' := {| world := world env1; trace := trace env1 ++ _ |}).
  destruct (Hfail (world env1')) as (e2 & He2 & _).
  pose proof (fetch_attempt_fails url env1' e2 He2) as F2.
  pose proof (fetch_attempt_trace url env1') as T2.
  destruct (fetch_attempt url env1') as [r2 env2]. simpl in F2, T2. subst r2.
  cbn [stop_after_attempt Nat.leb]. unfold bind at 1. unfold log at 1.
  set (env2' := {| world := world env2; trace := trace env2 ++ _ |}).
  destruct (Hfail (world env2')) as (e3 & He3 & HP).
  pose proof (fetch_attempt_fails url env2' e3 He3) as F3.
  pose proof (fetch_attempt_trace url env2') as T3.
  destruct (fetch_attempt url env2') as [r3 env3]. simpl in F3, T3. subst r3.
  cbn [stop_after_attempt Nat.leb].
  exists e3, env3. split; [reflexivity|]. split; [exact HP|].
  rewrite T3. subst env2'. simpl. rewrite T2. subst env1'. simpl. rewrite T1.
  subst env0. simpl. rewrite <- !app_assoc. reflexivity.
Qed.

(** *** What the fetcher leaves in the trace *)

Lemma quiet_nil : quiet [].
Proof. intro u. reflexivity. Qed.

Lemma quiet_app (a b : list Event) : quiet a -> quiet b -> quiet (a ++ b).
Proof. intros Ha Hb u. rewrite fetch_calls_app, Ha, Hb. reflexivity. Qed.

Lemma quiet_cons (e : Event) (t : list Event) :
  (forall u, e <> FetchCall u) -> quiet t -> quiet (e :: t).
Proof.
  intros He Ht u. unfold fetch_calls.
  rewrite count_occ_cons_neq by apply He. apply Ht.
Qed.

Lemma fetch_calls_call (u url : string) (t : list Event) :
  fetch_calls u (FetchCall url :: t) =
  (if string_dec url u then 1 else 0) + fetch_calls u t.
Proof.
  unfold fetch_calls. destruct (string_dec url u) as [->|N].
  - rewrite count_occ_cons_eq by reflexivity. reflexivity.
  - rewrite count_occ_cons_neq by congruence. reflexivity.
Qed.

Lemma retrying_trace (stop : nat -> bool) (wait : nat -> Z) (url : string) :
  forall remaining attempt_number env,
  exists t,
    trace (snd (retrying stop wait remaining attempt_number (fetch_attempt url) env))
    = trace env ++ Get url :: t /\ quiet t.
Proof.
  induction remaining as [|n IH]; intros k env; cbn [retrying];
    pose proof (fetch_attempt_trace url env) as T;
    destruct (fetch_attempt url env) as [[e|a] env1]; simpl in T |- *;
    try (exists []; split; [exact T | apply quiet_nil]).
  destruct (stop k).
  - exists []. split; [exact T | apply quiet_nil].
  - unfold bind at 1. unfold log at 1.
    destruct (IH (S k) {| world := world env1; trace := trace env1 ++ [Backoff (wait k)] |})
      as (t & Ht & Hq).
    exists (Backoff (wait k) :: Get url :: t). split.
    + rewrite Ht. simpl. rewrite T. rewrite <- !app_assoc. reflexivity.
    + apply quiet_cons; [discriminate|]. apply quiet_cons; [discriminate|]. exact Hq.
Qed.

(** A call of [_fetch_page] is recorded once and starts with a request. *)
Lemma fetch_page_trace (url : string) (env : Env) :
  exists t,
    trace (snd (_fetch_page url env)) = trace env ++ FetchCall url :: Get url :: t
    /\ quiet t.
Proof.
  unfold _fetch_page, retry, bind at 1. unfold log at 1.
  destruct (retrying_trace (stop_after_attempt 3) (wait_exponential 1 2 10) url 3 1
              {| world := world env; trace := trace env ++ [FetchCall url] |})
    as (t & Ht & Hq).
  exists t. split; [|exact Hq].
  rewrite Ht. simpl. rewrite <- app_assoc. reflexivity.
Qed.

Lemma retrying_S {A : Type} (stop : nat -> bool) (wait : nat -> Z)
    (n k : nat) (fn : M A) (env : Env) :
  retrying stop wait (S n) k fn env =
    match fn env with
    | (inr a, env') => (inr a, env')
    | (inl e, env') =>
        if stop k then (inl (RetryError e), env')
        else (log (Backoff (wait k)) ;;; retrying stop wait n (S k) fn) env'
    end.
Proof. reflexivity. Qed.

(** A failed first attempt, whatever its exception, is followed by a sleep
    and a second request. *)
Lemma fetch_page_second_request (url : string) (env : Env) (e : Exn) :
  fst (fetch_attempt url
         {| world := world env; trace := trace env ++ [FetchCall url] |}) = inl e ->
  exists t,
    trace (snd (_fetch_page url env))
    = trace env ++ FetchCall url :: Get url
        :: Backoff (wait_exponential 1 2 10 1) :: Get url :: t.
Proof.
  intros F. unfold _fetch_page, retry, bind at 1. unfold log at 1.
  rewrite retrying_S.
  set (env0 := {| world := world env; trace := trace env ++ [FetchCall url] |}) in *.
  pose proof (fetch_attempt_trace url env0) as T1.
  destruct (fetch_attempt url env0) as [r1 env1]. simpl in F, T1. subst r1.
  cbn [stop_after_attempt Nat.leb]. unfold bind at 1. unfold log at 1.
  destruct (retrying_trace (stop_after_attempt 3) (wait_exponential 1 2 10) url 2 2
              {| world := world env1;
                 trace := trace env1 ++ [Backoff (wait_exponential 1 2 10 1)] |})
    as (t & Ht & _).
  exists t. rewrite Ht. simpl. rewrite T1. subst env0. simpl.
  rewrite <- !app_assoc. reflexivity.
Qed.

(** *** Single mode never raises *)

Lemma llm_extract_trace (text schema url : string) (env : Env) :
  exists record env', _llm_extract text schema url env = (inr record, env')
                      /\ trace env' = trace env.
Proof.
  unfold _llm_extract. destruct (llm_extract _ _ _ _) as [record w].
  eexists _, _. split; reflexivity.
Qed.

Lemma scrape_single_failure (url : string) (schema : option string)
    (include_raw clean_content : bool) (env env1 : Env) (e : Exn) :
  _fetch_page url env = (inl e, env1) ->
  scrape_single url schema include_raw clean_content env = (inr (ScrapeFailed url e), env1).
Proof.
  intros F. unfold scrape_single, try_except, bind at 1. rewrite F. reflexivity.
Qed.

Lemma scrape_single_spec (url : string) (schema : option string)
    (include_raw clean_content : bool) (env : Env) :
  exists r env' t,
    scrape_single url schema include_raw clean_content env = (inr r, env') /\
    result_url r = url /\
    trace env' = trace env ++ FetchCall url :: Get url :: t /\ quiet t /\
    match fst (_fetch_page url env) with
    | inl e => r = ScrapeFailed url e
    | inr _ => success r = true
    end.
Proof.
  destruct (fetch_page_trace url env) as (t & Ht & Hq).
  destruct (_fetch_page url env) as [[e|fetched] env1] eqn:F; simpl in Ht.
  - exists (ScrapeFailed url e), env1, t.
    rewrite (scrape_single_failure _ _ _ _ _ _ _ F). simpl. auto.
  - unfold scrape_single, try_except, bind at 1. rewrite F.
    unfold bind at 1.
    assert (X : exists x env2,
               match schema with
               | Some sch =>
                   if schema_truthy sch
                   then (d <- _llm_extract (_extract_text (fst fetched)) sch url ;;
                         ret (Some d))
                   else ret None
               | None => ret None
               end env1 = (inr x, env2) /\ trace env2 = trace env1).
    { destruct schema as [sch|]; [destruct (schema_truthy sch)|].
      - unfold bind.
        destruct (llm_extract_trace (_extract_text (fst fetched)) sch url env1)
          as (d & env2 & -> & T).
        exists (Some d), env2. split; [reflexivity | exact T].
      - exists None, env1. split; reflexivity.
      - exists None, env1. split; reflexivity. }
    destruct X as (x & env2 & -> & T2).
    unfold bind at 1, _extract_lead_info.
    destruct (llm_extract_trace (_extract_text (fst fetched)) lead_schema url env2)
      as (li & env3 & -> & T3).
    unfold ret. eexists _, env3, t. split; [reflexivity|].
    split; [reflexivity|]. split; [congruence|]. split; [exact Hq | reflexivity].
Qed.

(** ** Crawl mode: one page, one batch *)

Lemma result_url_set_links (r : ScrapeResult) (l : list string) :
  result_url (set_links r l) = result_url r.
Proof. destruct r; reflexivity. Qed.

(** [_crawl_page] never raises, reports on its own URL, starts with a call of
    [_fetch_page] on it and calls [_fetch_page] at most once more. *)
Lemma crawl_page_spec (url : string) (schema : option string) (env : Env) :
  exists r env' t,
    _crawl_page url schema env = (inr r, env') /\
    result_url r = url /\
    trace env' = trace env ++ FetchCall url :: Get url :: t /\
    (forall u, fetch_calls u t <= if string_dec url u then 1 else 0).
Proof.
  destruct (scrape_single_spec url schema false true env)
    as (r0 & env1 & t1 & E1 & U1 & T1 & Q1 & _).
  unfold _crawl_page, bind at 1. rewrite E1.
  destruct (success r0) eqn:S0.
  - destruct (fetch_page_trace url env1) as (t2 & T2 & Q2).
    unfold bind at 1, try_except, bind at 1.
    destruct (_fetch_page url env1) as [[e|fetched] env2]; simpl in T2; unfold ret;
      eexists _, env2, (t1 ++ FetchCall url :: Get url :: t2);
      (split; [reflexivity|]);
      (split; [rewrite result_url_set_links; exact U1|]);
      (split; [rewrite T2, T1, <- app_assoc; reflexivity|]);
      intro u; rewrite fetch_calls_app, Q1, fetch_calls_call;
      (assert (G : fetch_calls u (Get url :: t2) = 0)
         by (apply quiet_cons; [discriminate | exact Q2]));
      rewrite G; destruct (string_dec url u); lia.
  - unfold ret. exists r0, env1, t1. repeat split; auto.
    intro u. rewrite Q1. lia.
Qed.

(** A batch: every task yields a result for its URL, in order, and the calls
    of [_fetch_page] on a URL number at most twice its tasks. *)
Lemma gather_crawl_spec (schema : option string) (tasks : list string) :
  forall env, exists rs env' t,
    gather (map (fun url => _crawl_page url schema) tasks) env = (map inr rs, env') /\
    map result_url rs = tasks /\
    trace env' = trace env ++ t /\
    (forall u, fetch_calls u t <= 2 * count_occ string_dec tasks u).
Proof.
  induction tasks as [|url tasks IH]; intros env.
  - exists [], env, []. simpl. rewrite app_nil_r. repeat split; auto.
  - destruct (crawl_page_spec url schema env) as (r & env1 & t1 & E1 & U1 & T1 & C1).
    destruct (IH env1) as (rs & env2 & t2 & E2 & U2 & T2 & C2).
    exists (r :: rs), env2, ((FetchCall url :: Get url :: t1) ++ t2).
    cbn [map gather]. rewrite E1, E2. split; [reflexivity|].
    split; [simpl; congruence|].
    split; [rewrite T2, T1, <- app_assoc; reflexivity|].
    intro u. rewrite fetch_calls_app. cbn [app]. rewrite fetch_calls_call.
    assert (G : fetch_calls u (Get url :: t1) = fetch_calls u t1).
    { unfold fetch_calls. apply count_occ_cons_neq. discriminate. }
    rewrite G. specialize (C1 u). specialize (C2 u).
    cbn [count_occ]. destruct (string_dec url u); lia.
Qed.

Lemma mem_true_iff (x : string) (l : list string) : mem x l = true <-> In x l.
Proof.
  unfold mem. rewrite existsb_exists. split.
  - intros (y & Hy & E). apply String.eqb_eq in E. now subst.
  - intros H. exists x. split; [exact H | apply String.eqb_refl].
Qed.

Lemma mem_false_iff (x : string) (l : list string) : mem x l = false <-> ~ In x l.
Proof.
  rewrite <- mem_true_iff. destruct (mem x l); split; congruence.
Qed.

(** Scheduling a batch adds its unvisited URLs, each once, to the set. *)
Lemma schedule_spec (batch : list string) :
  forall visited,
    snd (schedule batch visited) = visited ++ fst (schedule batch visited) /\
    incl (fst (schedule batch visited)) batch /\
    (NoDup visited -> NoDup (snd (schedule batch visited))) /\
    List.length (fst (schedule batch visited)) <= List.length batch.
Proof.
  induction batch as [|url rest IH]; intros visited; cbn [schedule].
  - simpl. rewrite app_nil_r. repeat split; auto. apply incl_refl.
  - destruct (mem url visited) eqn:Hm.
    + destruct (IH visited) as (A & B & C & D).
      split; [exact A|]. split; [apply incl_tl, B|]. split; [exact C|].
      simpl. lia.
    + destruct (IH (visited ++ [url])) as (A & B & C & D).
      destruct (schedule rest (visited ++ [url])) as [tasks visited'].
      simpl in *. repeat split.
      * rewrite A, <- app_assoc. reflexivity.
      * apply incl_cons; [left; reflexivity | apply incl_tl, B].
      * intros ND. apply C. apply NoDup_app; [exact ND | constructor; [easy|constructor] |].
        intros x Hx [<-|[]]. apply mem_false_iff in Hm. contradiction.
      * lia.
Qed.

(** ** Crawl mode: one turn of the loop *)

Lemma enqueue_links_eq (base : string) (inc exc : option (list string))
    (visited links : list string) :
  forall q, enqueue_links links base inc exc visited q
            = q ++ filter (enqueued base inc exc visited) links.
Proof.
  unfold enqueue_links, enqueued.
  induction links as [|l links IH]; intros q; cbn [fold_left filter].
  - now rewrite app_nil_r.
  - rewrite IH. destruct (_should_crawl l base inc exc); simpl; [|reflexivity].
    destruct (mem l visited); simpl; [reflexivity|].
    rewrite <- app_assoc. reflexivity.
Qed.

(** Going through a batch's results: the set is not touched, the successes
    are appended to the results, and only links that pass the test are
    appended to the queue (none when no page succeeded). *)
Lemma collect_fold_spec (base : string) (inc exc : option (list string))
    (rs : list ScrapeResult) :
  forall st0,
    let st' := fold_left (collect base inc exc) (map inr rs) st0 in
    visited_urls st' = visited_urls st0 /\
    results st' = results st0 ++ filter success rs /\
    exists added,
      queue st' = queue st0 ++ added /\
      Forall (fun l => enqueued base inc exc (visited_urls st0) l = true) added /\
      (filter success rs = [] -> added = []).
Proof.
  induction rs as [|r rs IH]; intros st0; cbn [map fold_left filter].
  - cbn zeta. rewrite app_nil_r. repeat split; auto.
    exists []. rewrite app_nil_r. repeat split; auto.
  - cbn zeta in *.
    replace (collect base inc exc st0 (inr r))
      with (if success r
            then {| queue := enqueue_links (result_links r) base inc exc
                               (visited_urls st0) (queue st0);
                    visited_urls := visited_urls st0;
                    results := results st0 ++ [r] |}
            else st0) by reflexivity.
    destruct (success r) eqn:Sr.
    + set (st1 := {| queue := _; visited_urls := _; results := _ |}).
      destruct (IH st1) as (V & R & added & Q & F & _).
      split; [rewrite V; reflexivity|].
      split; [rewrite R; subst st1; simpl; rewrite <- app_assoc; reflexivity|].
      exists (filter (enqueued base inc exc (visited_urls st0)) (result_links r) ++ added).
      split; [|split].
      * rewrite Q. subst st1. simpl. rewrite enqueue_links_eq, <- app_assoc. reflexivity.
      * apply Forall_app. split; [|exact F].
        apply Forall_forall. intros l Hl. apply filter_In in Hl. apply Hl.
      * discriminate.
    + apply IH.
Qed.

Lemma crawl_iteration_spec (base : string) (schema : option string)
    (inc exc : option (list string)) (st : CrawlState) (env : Env) :
  exists tasks rs added t,
    let st' := fst (crawl_iteration base schema inc exc st env) in
    let env' := snd (crawl_iteration base schema inc exc st env) in
    visited_urls st' = visited_urls st ++ tasks /\
    incl tasks (firstn MAX_CONCURRENT_SCRAPES (queue st)) /\
    (NoDup (visited_urls st) -> NoDup (visited_urls st')) /\
    List.length tasks <= MAX_CONCURRENT_SCRAPES /\
    map result_url rs = tasks /\
    results st' = results st ++ filter success rs /\
    queue st' = skipn MAX_CONCURRENT_SCRAPES (queue st) ++ added /\
    Forall (fun l => enqueued base inc exc (visited_urls st') l = true) added /\
    (filter success rs = [] -> added = []) /\
    trace env' = trace env ++ t ++ [RateLimit] /\
    (forall u, fetch_calls u t <= 2 * count_occ string_dec tasks u).
Proof.
  unfold crawl_iteration.
  destruct (schedule_spec (firstn MAX_CONCURRENT_SCRAPES (queue st)) (visited_urls st))
    as (SA & SB & SC & SD).
  destruct (schedule _ (visited_urls st)) as [tasks visited'] eqn:ES. simpl in SA, SB, SC, SD.
  destruct (gather_crawl_spec schema tasks env) as (rs & env1 & t & G & U & T & C).
  rewrite G.
  set (st0 := {| queue := skipn MAX_CONCURRENT_SCRAPES (queue st);
                 visited_urls := visited'; results := results st |}).
  destruct (collect_fold_spec base inc exc rs st0) as (V & R & added & Q & F & N).
  exists tasks, rs, added, t. cbn zeta. cbn [fst snd log].
  rewrite V, R, Q. subst st0. cbn [visited_urls results queue trace].
  repeat split; auto.
  - pose proof (firstn_le_length MAX_CONCURRENT_SCRAPES (queue st)). lia.
  - rewrite T, <- app_assoc. reflexivity.
Qed.

(** ** Loops *)

(** The rule of a [while] loop: what holds at the start and is kept by every
    turn holds at the end, where the loop condition is false. *)
Lemma while_loop_invariant {State : Type} (P : State -> Env -> Prop)
    (continues : State -> bool) (body : State -> Env -> State * Env) :
  (forall st env, P st env -> continues st = true ->
     P (fst (body st env)) (snd (body st env))) ->
  forall fuel st env st' env',
    P st env ->
    while_loop fuel continues body st env = Some (st', env') ->
    P st' env' /\ continues st' = false.
Proof.
  intros Hstep. induction fuel as [|fuel IH]; intros st env st' env' HP; cbn [while_loop];
    destruct (continues st) eqn:Hc; try discriminate;
    try (intros H; injection H as <- <-; auto).
  specialize (Hstep st env HP Hc).
  destruct (body st env) as [st1 env1].
  apply IH. exact Hstep.
Qed.

(** The outcome of a loop does not depend on the fuel that suffices. *)
Lemma while_loop_fuel_irrelevant {State : Type} (continues : State -> bool)
    (body : State -> Env -> State * Env) :
  forall fuel fuel' st env r r',
    while_loop fuel continues body st env = Some r ->
    while_loop fuel' continues body st env = Some r' ->
    r = r'.
Proof.
  induction fuel as [|fuel IH]; intros fuel' st env r r';
    destruct fuel' as [|fuel']; cbn [while_loop];
    destruct (continues st); try discriminate; try congruence.
  destruct (body st env) as [st1 env1]. apply IH.
Qed.

(** A loop ends when every turn lowers a first measure, or keeps it and
    lowers a second one. *)
Lemma while_loop_terminates {State : Type} (continues : State -> bool)
    (body : State -> Env -> State * Env) (m1 m2 : State -> nat) :
  (forall st env, continues st = true ->
     m1 (fst (body st env)) < m1 st \/
     (m1 (fst (body st env)) = m1 st /\ m2 (fst (body st env)) < m2 st)) ->
  forall st env, exists fuel r, while_loop fuel continues body st env = Some r.
Proof.
  intros Hstep.
  assert (H : forall a b st env, m1 st <= a -> m2 st <= b ->
             exists fuel r, while_loop fuel continues body st env = Some r).
  { induction a as [|a IHa].
    - induction b as [|b IHb]; intros st env Ha Hb;
        destruct (continues st) eqn:Hc;
        try (exists 0, (st, env); cbn [while_loop]; rewrite Hc; reflexivity);
        destruct (Hstep st env Hc) as [Hlt | [Heq Hlt]]; try lia.
      destruct (body st env) as [st1 env1] eqn:Eb. simpl in *.
      destruct (IHb st1 env1) as (fuel & r & Hr); try lia.
      exists (S fuel), r. cbn [while_loop]. rewrite Hc, Eb. exact Hr.
    - induction b as [|b IHb]; intros st env Ha Hb;
        destruct (continues st) eqn:Hc;
        try (exists 0, (st, env); cbn [while_loop]; rewrite Hc; reflexivity);
        destruct (Hstep st env Hc) as [Hlt | [Heq Hlt]]; try lia;
        destruct (body st env) as [st1 env1] eqn:Eb; simpl in *.
      + destruct (IHa (m2 st1) st1 env1) as (fuel & r & Hr); try lia.
        exists (S fuel), r. cbn [while_loop]. rewrite Hc, Eb. exact Hr.
      + destruct (IHa (m2 st1) st1 env1) as (fuel & r & Hr); try lia.
        exists (S fuel), r. cbn [while_loop]. rewrite Hc, Eb. exact Hr.
      + destruct (IHb st1 env1) as (fuel & r & Hr); try lia.
        exists (S fuel), r. cbn [while_loop]. rewrite Hc, Eb. exact Hr. }
  intros st env. apply (H (m1 st) (m2 st)); lia.
Qed.

(** ** Crawl mode: the loop *)

(** A turn of the loop either adds a result or shortens the queue. *)
Lemma crawl_iteration_progress (base : string) (schema : option string)
    (inc exc : option (list string)) (st : CrawlState) (env : Env) :
  1 <= MAX_CONCURRENT_SCRAPES ->
  queue st <> [] ->
  let st' := fst (crawl_iteration base schema inc exc st env) in
  List.length (results st) < List.length (results st') \/
  (results st' = results st /\ List.length (queue st') < List.length (queue st)).
Proof.
  intros HM Hq.
  destruct (crawl_iteration_spec base schema inc exc st env)
    as (tasks & rs & added & t & _ & _ & _ & _ & _ & R & Q & _ & N & _).
  cbn zeta in *. rewrite R, Q.
  destruct (filter success rs) as [|r0 l] eqn:Ef.
  - right. rewrite (N eq_refl), !app_nil_r. split; [reflexivity|].
    rewrite length_skipn.
    assert (0 < List.length (queue st)) by (destruct (queue st); [contradiction | simpl; lia]).
    lia.
  - left. rewrite length_app. simpl. lia.
Qed.

Lemma crawl_continues_true (max_pages : Z) (st : CrawlState) :
  crawl_continues max_pages st = true ->
  queue st <> [] /\ (Z.of_nat (List.length (results st)) < max_pages)%Z.
Proof.
  unfold crawl_continues. destruct (queue st); [discriminate|].
  intros H. split; [discriminate | now apply Z.ltb_lt].
Qed.

(** The loop of [crawl_site] ends, whatever the pages answer. *)
Lemma crawl_loop_terminates (max_pages : Z) (base : string) (schema : option string)
    (inc exc : option (list string)) :
  1 <= MAX_CONCURRENT_SCRAPES ->
  forall st env, exists fuel r,
    crawl_loop fuel max_pages base schema inc exc st env = Some r.
Proof.
  intros HM. unfold crawl_loop.
  apply (while_loop_terminates _ _
           (fun st => Z.to_nat (max_pages - Z.of_nat (List.length (results st))))
           (fun st => List.length (queue st))).
  intros st env Hc. apply crawl_continues_true in Hc. destruct Hc as [Hq Hlt].
  destruct (crawl_iteration_progress base schema inc exc st env HM Hq) as [Hg | [Hs Hl]].
  - left. lia.
  - right. rewrite Hs. split; [reflexivity | exact Hl].
Qed.

(** Both together: with at least one slot per batch, [crawl_site] reaches
    the end of its loop, and what every turn keeps holds there. *)
Lemma crawl_loop_ends_with (P : CrawlState -> Env -> Prop) (max_pages : Z)
    (base : string) (schema : option string) (inc exc : option (list string)) :
  1 <= MAX_CONCURRENT_SCRAPES ->
  (forall st env, P st env -> crawl_continues max_pages st = true ->
     P (fst (crawl_iteration base schema inc exc st env))
       (snd (crawl_iteration base schema inc exc st env))) ->
  forall st env, P st env ->
    exists fuel st' env',
      crawl_loop fuel max_pages base schema inc exc st env = Some (st', env') /\
      P st' env' /\ crawl_continues max_pages st' = false.
Proof.
  intros HM Hstep st env HP.
  destruct (crawl_loop_terminates max_pages base schema inc exc HM st env)
    as (fuel & [st' env'] & Hr).
  exists fuel, st', env'. split; [exact Hr|].
  apply (while_loop_invariant P _ _ Hstep fuel st env); assumption.
Qed.

(** ** Map mode: the loop *)

Lemma map_links_eq (current_url base : string) (soup : Soup) (visited : list string) :
  forall q,
    map_links current_url base soup visited q
    = q ++ map before_hash
             (filter (fun href => (netloc href =? base) && negb (mem href visited))
                     (map (urljoin current_url) (anchor_hrefs soup))).
Proof.
  unfold map_links. induction (anchor_hrefs soup) as [|l links IH]; intros q;
    cbn [fold_left map filter].
  - now rewrite app_nil_r.
  - rewrite IH.
    destruct ((netloc (urljoin current_url l) =? base)
              && negb (mem (urljoin current_url l) visited)); [|reflexivity].
    cbn [map]. rewrite <- app_assoc. reflexivity.
Qed.

Lemma map_links_from_host (current_url base : string) (soup : Soup)
    (visited q : list string) :
  exists added,
    map_links current_url base soup visited q = q ++ added /\
    Forall (from_host base) added.
Proof.
  rewrite map_links_eq. eexists. split; [reflexivity|].
  apply Forall_forall. intros u Hu. apply in_map_iff in Hu.
  destruct Hu as (href & <- & Hin). apply filter_In in Hin.
  destruct Hin as [_ Hc]. apply andb_true_iff in Hc. destruct Hc as [Hn _].
  exists href. split; [now apply String.eqb_eq | right; reflexivity].
Qed.

(** The entry [map_site] records for a page has the type the rules give its URL. *)
Lemma map_page_type (url current_url : string) (env env' : Env)
    (page_info : SitemapEntry) (soup : Soup) :
  map_page url current_url env = (inr (page_info, soup), env') ->
  entry_type page_info = first_match url_rules "other" (lower current_url) /\
  entry_url page_info = current_url.
Proof.
  unfold map_page, bind at 1.
  destruct (_fetch_page current_url env) as [[e|fetched] env1]; [discriminate|].
  unfold bind, lift, ret.
  destruct (_classify_page_type current_url (BeautifulSoup (fst fetched))) as [e|t] eqn:Ec;
    [discriminate|].
  intros H. injection H as <- _ _. cbn [entry_type entry_url]. split; [|reflexivity].
  rewrite classify_page_type_eq in Ec.
  destruct (title_lower (BeautifulSoup (fst fetched))); congruence.
Qed.

(** A turn of the loop of [map_site]: either no entry is added and the head
    of the queue is dropped, or one entry is added for the head of the queue
    and links of the seed's host are appended. *)
Lemma map_iteration_spec (url base current_url : string) (rest : list string)
    (st : MapState) (env : Env) :
  map_queue st = current_url :: rest ->
  let st' := fst (map_iteration url base st env) in
  (site_map st' = site_map st /\ map_queue st' = rest /\
   (map_visited st' = map_visited st \/
    map_visited st' = map_visited st ++ [current_url]))
  \/
  (exists page_info added,
     site_map st' = site_map st ++ [page_info] /\
     entry_type page_info = first_match url_rules "other" (lower current_url) /\
     entry_url page_info = current_url /\
     map_queue st' = rest ++ added /\ Forall (from_host base) added /\
     map_visited st' = map_visited st ++ [current_url]).
Proof.
  intros Hq. unfold map_iteration. rewrite Hq.
  destruct (mem current_url (map_visited st)).
  - left. simpl. auto.
  - destruct (map_page url current_url env) as [[e|[page_info soup]] env1] eqn:Ep.
    + left. simpl. auto.
    + right. destruct (map_page_type _ _ _ _ _ _ Ep) as [Ht Hu].
      destruct (map_links_from_host current_url base soup
                  (map_visited st ++ [current_url]) rest) as (added & Ha & Hf).
      exists page_info, added. simpl. repeat split; auto.
Qed.

Lemma map_continues_true (max_pages : Z) (st : MapState) :
  map_continues max_pages st = true ->
  (exists current_url rest, map_queue st = current_url :: rest) /\
  (Z.of_nat (List.length (site_map st)) < max_pages)%Z.
Proof.
  unfold map_continues. destruct (map_queue st) as [|c r]; [discriminate|].
  intros H. split; [eauto | now apply Z.ltb_lt].
Qed.

(** The loop of [map_site] ends, whatever the pages answer. *)
Lemma map_loop_terminates (max_pages : Z) (url base : string) :
  forall st env, exists fuel r, map_loop fuel max_pages url base st env = Some r.
Proof.
  unfold map_loop.
  apply (while_loop_terminates _ _
           (fun st => Z.to_nat (max_pages - Z.of_nat (List.length (site_map st))))
           (fun st => List.length (map_queue st))).
  intros st env Hc. apply map_continues_true in Hc.
  destruct Hc as [(c & rest & Hq) Hlt].
  destruct (map_iteration_spec url base c rest st env Hq)
    as [(Hs & Hq' & _) | (e & added & Hs & _)]; cbn zeta in *.
  - right. rewrite Hs, Hq', Hq. simpl. split; [reflexivity | lia].
  - left. rewrite Hs, length_app. simpl. lia.
Qed.

Lemma map_loop_ends_with (P : MapState -> Env -> Prop) (max_pages : Z)
    (url base : string) :
  (forall st env, P st env -> map_continues max_pages st = true ->
     P (fst (map_iteration url base st env)) (snd (map_iteration url base st env))) ->
  forall st env, P st env ->
    exists fuel st' env',
      map_loop fuel max_pages url base st env = Some (st', env') /\
      P st' env' /\ map_continues max_pages st' = false.
Proof.
  intros Hstep st env HP.
  destruct (map_loop_terminates max_pages url base st env) as (fuel & [st' env'] & Hr).
  exists fuel, st', env'. split; [exact Hr|].
  apply (while_loop_invariant P _ _ Hstep fuel st env); assumption.
Qed.

(** ** Crawl and map never leave the host of the seed *)

Lemma incl_firstn {A : Type} (n : nat) (l : list A) : incl (firstn n l) l.
Proof.
  intros x Hx. rewrite <- (firstn_skipn n l). apply in_or_app. now left.
Qed.

Lemma incl_skipn {A : Type} (n : nat) (l : list A) : incl (skipn n l) l.
Proof.
  intros x Hx. rewrite <- (firstn_skipn n l). apply in_or_app. now right.
Qed.

Lemma enqueued_same_host (base : string) (inc exc : option (list string))
    (visited : list string) (link : string) :
  enqueued base inc exc visited link = true ->
  netloc link = base /\ mem link visited = false.
Proof.
  unfold enqueued. intros H. apply andb_true_iff in H. destruct H as [H1 H2].
  split; [eapply should_crawl_same_host; exact H1|].
  now apply negb_true_iff in H2.
Qed.

(** Every turn of the crawl keeps the set and the queue on one host. *)
Lemma crawl_iteration_same_host (base : string) (schema : option string)
    (inc exc : option (list string)) (st : CrawlState) (env : Env) :
  Forall (fun u => netloc u = base) (visited_urls st ++ queue st) ->
  Forall (fun u => netloc u = base)
    (visited_urls (fst (crawl_iteration base schema inc exc st env))
     ++ queue (fst (crawl_iteration base schema inc exc st env))).
Proof.
  intros H. apply Forall_app in H. destruct H as [Hv Hq].
  destruct (crawl_iteration_spec base schema inc exc st env)
    as (tasks & rs & added & t & V & I & _ & _ & _ & _ & Q & F & _).
  cbn zeta in *. rewrite V, Q. rewrite Forall_forall in Hq.
  repeat (apply Forall_app; split); auto.
  - apply Forall_forall. intros u Hu. apply Hq. eapply incl_firstn, I, Hu.
  - apply Forall_forall. intros u Hu. apply Hq. eapply incl_skipn, Hu.
  - eapply Forall_impl; [|exact F]. intros l Hl.
    now apply enqueued_same_host in Hl.
Qed.

Lemma map_iteration_from_host (url base : string) (st : MapState) (env : Env) :
  Forall (from_host base) (map_visited st ++ map_queue st) ->
  Forall (from_host base)
    (map_visited (fst (map_iteration url base st env))
     ++ map_queue (fst (map_iteration url base st env))).
Proof.
  intros H. destruct (map_queue st) as [|c rest] eqn:Hq.
  - unfold map_iteration. rewrite Hq. simpl. rewrite Hq. exact H.
  - apply Forall_app in H. destruct H as [Hv Hcr].
    inversion Hcr as [|? ? Hc Hr]; subst.
    destruct (map_iteration_spec url base c rest st env Hq)
      as [(_ & Q & [V|V]) | (e & added & _ & _ & _ & Q & F & V)];
      cbn zeta in *; rewrite Q, V; repeat (apply Forall_app; split); auto.
Qed.

(** C6.  A link whose host differs from the host of the seed is never put
    into the queue.  For a single link: the crawl's filter turns it down, so
    [enqueue_links] leaves the queue as it is.  For whole runs: when
    [crawl_site] ends, every URL that was given a task and every URL still
    queued has the host of the seed; when [map_site] ends, each of them is
    the seed or a link of the seed's host (without its fragment).  These are
    all the URLs that ever stood in the queue, since a URL leaves the queue
    only to enter the set of visited URLs or because it is in it already. *)
Theorem crawl_and_map_stay_on_seed_host :
  1 <= MAX_CONCURRENT_SCRAPES ->
  forall (seed : string) (max_pages : Z) (schema : option string)
         (inc exc : option (list string)) (env : Env),
    (forall link visited q,
        (netloc link =? netloc seed) = false ->
        enqueue_links [link] (netloc seed) inc exc visited q = q) /\
    (exists fuel st env',
        crawl_run fuel seed max_pages schema inc exc env = Some (st, env') /\
        Forall (fun u => netloc u = netloc seed) (visited_urls st ++ queue st)) /\
    (exists fuel st env',
        map_run fuel seed max_pages env = Some (st, env') /\
        Forall (from_host (netloc seed)) (map_visited st ++ map_queue st)).
Proof.
  intros HM seed max_pages schema inc exc env. split; [|split].
  - intros link visited q Hn. unfold enqueue_links, _should_crawl. simpl.
    rewrite Hn. reflexivity.
  - unfold crawl_run.
    destruct (crawl_loop_ends_with
                (fun st _ => Forall (fun u => netloc u = netloc seed)
                               (visited_urls st ++ queue st))
                max_pages (netloc seed) schema inc exc HM) with (st := crawl_start seed) (env := env)
      as (fuel & st & env' & Hr & HP & _).
    + intros st0 env0 H _. now apply crawl_iteration_same_host.
    + simpl. constructor; [reflexivity | constructor].
    + exists fuel, st, env'. auto.
  - unfold map_run.
    destruct (map_loop_ends_with
                (fun st _ => Forall (from_host (netloc seed)) (map_visited st ++ map_queue st))
                max_pages seed (netloc seed)) with (st := map_start seed) (env := env)
      as (fuel & st & env' & Hr & HP & _).
    + intros st0 env0 H _. now apply map_iteration_from_host.
    + simpl. constructor; [|constructor]. exists seed. auto.
    + exists fuel, st, env'. auto.
Qed.

(** ** Each URL gets one task *)

Lemma fetch_calls_rate_limit (u : string) : fetch_calls u [RateLimit] = 0.
Proof. reflexivity. Qed.

(** Every turn keeps the set free of repetitions and the calls of
    [_fetch_page] on a URL within twice its tasks. *)
Lemma crawl_iteration_dedup (base : string) (schema : option string)
    (inc exc : option (list string)) (st : CrawlState) (env : Env) :
  NoDup (visited_urls st) /\
  (forall u, fetch_calls u (trace env) <= 2 * count_occ string_dec (visited_urls st) u) ->
  NoDup (visited_urls (fst (crawl_iteration base schema inc exc st env))) /\
  (forall u, fetch_calls u (trace (snd (crawl_iteration base schema inc exc st env)))
             <= 2 * count_occ string_dec
                      (visited_urls (fst (crawl_iteration base schema inc exc st env))) u).
Proof.
  intros [ND HC].
  destruct (crawl_iteration_spec base schema inc exc st env)
    as (tasks & rs & added & t & V & _ & N & _ & _ & _ & _ & _ & _ & T & C).
  cbn zeta in *. split; [auto|].
  intro u. rewrite T, V, !fetch_calls_app, fetch_calls_rate_limit, count_occ_app.
  specialize (HC u). specialize (C u). lia.
Qed.

(** C2, as the code has it.  In a run of [crawl_site], each URL is given a
    task ([_crawl_page]) at most once: the set of visited URLs, to which a
    URL is added when it gets its task, holds no URL twice, and no turn of
    the loop appends to the queue a URL that is in the set.  [_fetch_page]
    is called on a URL only for its task and at most twice (once to scrape
    the page and, when that succeeds, once more to read its links). *)
Theorem crawl_gives_each_url_one_task :
  1 <= MAX_CONCURRENT_SCRAPES ->
  forall (seed : string) (max_pages : Z) (schema : option string)
         (inc exc : option (list string)) (w : World),
    (exists fuel st env',
        crawl_run fuel seed max_pages schema inc exc {| world := w; trace := [] |}
        = Some (st, env') /\
        NoDup (visited_urls st) /\
        (forall u, fetch_calls u (trace env')
                   <= 2 * count_occ string_dec (visited_urls st) u) /\
        (forall u, fetch_calls u (trace env') <= 2)) /\
    (forall st env, exists added,
        queue (fst (crawl_iteration (netloc seed) schema inc exc st env))
        = skipn MAX_CONCURRENT_SCRAPES (queue st) ++ added /\
        Forall (fun link =>
                  mem link (visited_urls
                              (fst (crawl_iteration (netloc seed) schema inc exc st env)))
                  = false) added).
Proof.
  intros HM seed max_pages schema inc exc w. split.
  - unfold crawl_run.
    destruct (crawl_loop_ends_with
                (fun st env =>
                   NoDup (visited_urls st) /\
                   (forall u, fetch_calls u (trace env)
                              <= 2 * count_occ string_dec (visited_urls st) u))
                max_pages (netloc seed) schema inc exc HM)
      with (st := crawl_start seed) (env := {| world := w; trace := [] |})
      as (fuel & st & env' & Hr & [ND HC] & _).
    + intros st0 env0 H _. now apply crawl_iteration_dedup.
    + simpl. split; [constructor | intro u; cbn; lia].
    + exists fuel, st, env'. repeat split; auto.
      intro u. specialize (HC u).
      pose proof (proj1 (NoDup_count_occ string_dec (visited_urls st)) ND u). lia.
  - intros st env.
    destruct (crawl_iteration_spec (netloc seed) schema inc exc st env)
      as (tasks & rs & added & t & _ & _ & _ & _ & _ & _ & Q & F & _).
    cbn zeta in *. exists added. split; [exact Q|].
    eapply Forall_impl; [|exact F]. intros l Hl.
    now apply enqueued_same_host in Hl.
Qed.

(** ** Failed pages and the payload *)

Lemma scrape_hits_spec (schema : option string) (hits : list Node) :
  forall found env, exists found' env',
    scrape_hits hits schema found env = (inr found', env') /\
    (Forall (fun r => success r = true) found ->
     Forall (fun r => success r = true) found').
Proof.
  induction hits as [|h hits IH]; intros found env; cbn [scrape_hits].
  - exists found, env. split; [reflexivity | auto].
  - set (url := if startswith _ "//" then _ else _).
    destruct (scrape_single_spec url schema true true env) as (r & env1 & t & E & _).
    unfold bind at 1. rewrite E. unfold bind at 1, log at 1.
    set (found1 := if success r then found ++ [r] else found).
    destruct (IH found1 {| world := world env1; trace := trace env1 ++ [RateLimit] |})
      as (found' & env' & E' & F').
    exists found', env'. split; [exact E'|].
    intros F. apply F'. subst found1. destruct (success r) eqn:Sr; [|exact F].
    apply Forall_app. split; [exact F | constructor; [exact Sr | constructor]].
Qed.

Lemma crawl_iteration_successes (base : string) (schema : option string)
    (inc exc : option (list string)) (st : CrawlState) (env : Env) :
  Forall (fun r => success r = true) (results st) ->
  Forall (fun r => success r = true)
    (results (fst (crawl_iteration base schema inc exc st env))).
Proof.
  intros H.
  destruct (crawl_iteration_spec base schema inc exc st env)
    as (tasks & rs & added & t & _ & _ & _ & _ & _ & R & _).
  cbn zeta in *. rewrite R. apply Forall_app. split; [exact H|].
  apply Forall_forall. intros r Hr. apply filter_In in Hr. apply Hr.
Qed.

(** Every entry of the sitemap comes from a fetch of its URL that returned and
    a classification of what it returned. *)
Lemma map_iteration_entries (url base : string) (st : MapState) (env : Env) :
  Forall (fun entry => exists env0 fetched env1,
            _fetch_page (entry_url entry) env0 = (inr fetched, env1) /\
            _classify_page_type (entry_url entry) (BeautifulSoup (fst fetched))
            = inr (entry_type entry))
         (site_map st) ->
  Forall (fun entry => exists env0 fetched env1,
            _fetch_page (entry_url entry) env0 = (inr fetched, env1) /\
            _classify_page_type (entry_url entry) (BeautifulSoup (fst fetched))
            = inr (entry_type entry))
         (site_map (fst (map_iteration url base st env))).
Proof.
  intros F. unfold map_iteration.
  destruct (map_queue st) as [|c rest]; [exact F|].
  destruct (mem c (map_visited st)); [exact F|].
  destruct (map_page url c env) as [[e|[page_info soup]] env1] eqn:Ep;
    cbn [fst site_map]; [exact F|].
  apply Forall_app. split; [exact F|]. constructor; [|constructor].
  unfold map_page, bind at 1 in Ep.
  destruct (_fetch_page c env) as [[e|fetched] env2] eqn:Ef; [discriminate|].
  unfold bind, lift, ret in Ep.
  destruct (_classify_page_type c (BeautifulSoup (fst fetched))) as [e|t] eqn:Ec;
    [discriminate|].
  injection Ep as <- _ _. cbn [entry_url entry_type].
  exists env, fetched, env2. split; [exact Ef | exact Ec].
Qed.

(** C3, as the code has it.  A page that fails never fails the job, and it
    leaves no entry in the payload: [crawl_site] and [map_site] always end
    with [success = True] (the patterns being regular expressions that
    compile); the results of a crawl are successful scrapes only and
    [pages_crawled] counts them; [total_pages] counts the entries of the
    sitemap, each of which comes from a fetch of its URL that returned and a
    classification that returned, so that a URL whose every request fails
    has no entry; [search_and_scrape] fails exactly when the fetch of the
    search page fails, and otherwise returns successful scrapes only, with
    their count.  A scrape fails exactly when its fetch fails: what the
    extraction returns, an error record included, stays in the page's own
    record and does not fail the page. *)
Theorem page_failures_stay_out_of_the_payload :
  1 <= MAX_CONCURRENT_SCRAPES ->
  forall (seed : string) (max_pages : Z) (schema : option string)
         (inc exc : option (list string)) (query : string) (num_results : Z)
         (env : Env),
    (exists fuel payload env',
        crawl_site fuel seed max_pages schema inc exc env = Some (payload, env') /\
        crawl_success payload = true /\
        pages_crawled payload = List.length (crawl_results payload) /\
        Forall (fun r => success r = true) (crawl_results payload)) /\
    (exists fuel payload env',
        map_site fuel seed max_pages env = Some (payload, env') /\
        map_success payload = true /\
        total_pages payload = List.length (sitemap payload) /\
        Forall (fun entry => exists env0 fetched env1,
                  _fetch_page (entry_url entry) env0 = (inr fetched, env1) /\
                  _classify_page_type (entry_url entry) (BeautifulSoup (fst fetched))
                  = inr (entry_type entry))
               (sitemap payload) /\
        (forall u, always_fails u -> ~ In u (map entry_url (sitemap payload)))) /\
    (exists payload env',
        search_and_scrape query num_results schema env = (inr payload, env') /\
        match fst (_fetch_page ("https://html.duckduckgo.com/html/?q=" ++ query)%string env) with
        | inl e => payload = SearchFailed query e
        | inr _ => exists found,
                     payload = SearchCompleted query (List.length found) found /\
                     Forall (fun r => success r = true) found
        end) /\
    (exists r env',
        scrape_single seed schema true true env = (inr r, env') /\
        match fst (_fetch_page seed env) with
        | inl e => r = ScrapeFailed seed e
        | inr _ => success r = true
        end).
Proof.
  intros HM seed max_pages schema inc exc query num_results env.
  split; [|split; [|split]].
  - destruct (crawl_loop_ends_with
                (fun st _ => Forall (fun r => success r = true) (results st))
                max_pages (netloc seed) schema inc exc HM)
      with (st := crawl_start seed) (env := env)
      as (fuel & st & env' & Hr & HP & _).
    + intros st0 env0 H _. now apply crawl_iteration_successes.
    + constructor.
    + exists fuel. unfold crawl_site, crawl_run. rewrite Hr.
      eexists _, env'. split; [reflexivity|]. simpl. auto.
  - destruct (map_loop_ends_with
                (fun st _ =>
                   Forall (fun entry => exists env0 fetched env1,
                             _fetch_page (entry_url entry) env0 = (inr fetched, env1) /\
                             _classify_page_type (entry_url entry)
                               (BeautifulSoup (fst fetched))
                             = inr (entry_type entry))
                          (site_map st))
                max_pages seed (netloc seed))
      with (st := map_start seed) (env := env)
      as (fuel & st & env' & Hr & HP & _).
    + intros st0 env0 H _. now apply map_iteration_entries.
    + constructor.
    + exists fuel. unfold map_site, map_run. rewrite Hr.
      eexists _, env'. split; [reflexivity|]. cbn [map_success total_pages sitemap].
      split; [reflexivity|]. split; [reflexivity|]. split; [exact HP|].
      intros u Hu Hin. apply in_map_iff in Hin. destruct Hin as (entry & <- & Hin).
      rewrite Forall_forall in HP.
      destruct (HP entry Hin) as (env0 & fetched & env1 & Ef & _).
      destruct (fetch_page_exhausts (fun _ => True) (entry_url entry)) with (env := env0)
        as (cause & env2 & Ef' & _).
      * intros w. destruct (Hu w) as (e & He). exists e. split; [exact He | exact I].
      * rewrite Ef in Ef'. discriminate.
  - unfold search_and_scrape, try_except, bind at 1.
    destruct (_fetch_page _ env) as [[e|fetched] env1].
    + unfold ret. eexists _, env1. split; reflexivity.
    + destruct (scrape_hits_spec schema
                  (slice_to num_results (select_class "result__a" (BeautifulSoup (fst fetched))))
                  [] env1) as (found & env2 & E & F).
      unfold bind. rewrite E. unfold ret.
      eexists _, env2. split; [reflexivity|]. simpl.
      exists found. split; [reflexivity | apply F; constructor].
  - destruct (scrape_single_spec seed schema true true env)
      as (r & env' & t & E & _ & _ & _ & S).
    exists r, env'. split; [exact E | exact S].
Qed.

(** ** The seed *)

(** The first turn of the loop gives the seed its task, whatever the
    patterns are. *)
Lemma crawl_first_turn (base seed : string) (schema : option string)
    (inc exc : option (list string)) (env env1 : Env) (r : ScrapeResult) :
  1 <= MAX_CONCURRENT_SCRAPES ->
  _crawl_page seed schema env = (inr r, env1) ->
  crawl_iteration base schema inc exc (crawl_start seed) env =
    ({| queue := if success r
                 then enqueue_links (result_links r) base inc exc [seed] []
                 else [];
        visited_urls := [seed];
        results := if success r then [r] else [] |},
     {| world := world env1; trace := trace env1 ++ [RateLimit] |}).
Proof.
  intros HM E. unfold crawl_iteration, crawl_start. cbn [queue visited_urls results].
  destruct MAX_CONCURRENT_SCRAPES as [|n]; [lia|].
  cbn [firstn skipn]. rewrite firstn_nil, skipn_nil.
  cbn [schedule mem existsb app map gather]. rewrite E.
  cbn [fold_left collect]. destruct (success r); reflexivity.
Qed.

Lemma crawl_iteration_extends (base : string) (schema : option string)
    (inc exc : option (list string)) (st0 : CrawlState) (env0 : Env)
    (st : CrawlState) (env : Env) :
  extends st0 env0 st env ->
  extends st0 env0 (fst (crawl_iteration base schema inc exc st env))
                   (snd (crawl_iteration base schema inc exc st env)).
Proof.
  intros ((v & Hv) & (rs0 & Hr) & (t0 & Ht)).
  destruct (crawl_iteration_spec base schema inc exc st env)
    as (tasks & rs & added & t & V & _ & _ & _ & _ & R & _ & _ & _ & T & _).
  cbn zeta in *. repeat split.
  - exists (v ++ tasks). rewrite V, Hv, <- app_assoc. reflexivity.
  - exists (rs0 ++ filter success rs). rewrite R, Hr, <- app_assoc. reflexivity.
  - exists (t0 ++ t ++ [RateLimit]). rewrite T, Ht, <- app_assoc. reflexivity.
Qed.

(** C10.  The seed is fetched without passing the URL filter: whatever the
    include and exclude patterns are and whatever the seed looks like, a
    crawl that may take at least one page gives its first task to the seed,
    so the run starts with [_fetch_page] on the seed, and when the scrape of
    the seed succeeds, its result heads the results. *)
Theorem crawl_fetches_seed_unfiltered :
  1 <= MAX_CONCURRENT_SCRAPES ->
  forall (seed : string) (max_pages : Z) (schema : option string)
         (inc exc : option (list string)) (env : Env),
    (1 <= max_pages)%Z ->
    exists fuel st env',
      crawl_run fuel seed max_pages schema inc exc env = Some (st, env') /\
      hd_error (visited_urls st) = Some seed /\
      (exists t, trace env' = trace env ++ FetchCall seed :: Get seed :: t) /\
      (exists r, fst (_crawl_page seed schema env) = inr r /\
                 result_url r = seed /\
                 (success r = true -> hd_error (results st) = Some r)).
Proof.
  intros HM seed max_pages schema inc exc env Hmax.
  destruct (crawl_page_spec seed schema env) as (r & env1 & t & E & U & T & _).
  pose proof (crawl_first_turn (netloc seed) seed schema inc exc env env1 r HM E) as F.
  set (st1 := {| queue := _; visited_urls := [seed]; results := _ |}) in F.
  set (env1' := {| world := world env1; trace := trace env1 ++ [RateLimit] |}) in F.
  destruct (crawl_loop_ends_with (extends st1 env1') max_pages (netloc seed) schema inc exc HM)
    with (st := st1) (env := env1')
    as (fuel & st & env' & Hr & ((v & Hv) & (rs & Hrs) & (t' & Ht)) & _).
  - intros st0 env0 H _. now apply crawl_iteration_extends.
  - repeat split; exists []; now rewrite app_nil_r.
  - exists (S fuel), st, env'. split; [|split; [|split]].
    + unfold crawl_run, crawl_loop in *. cbn [while_loop].
      assert (C : crawl_continues max_pages (crawl_start seed) = true).
      { unfold crawl_continues, crawl_start. simpl. apply Z.ltb_lt. lia. }
      rewrite C, F. exact Hr.
    + rewrite Hv. reflexivity.
    + exists (t ++ [RateLimit] ++ t'). rewrite Ht. subst env1'. simpl.
      rewrite T, <- !app_assoc. reflexivity.
    + exists r. rewrite E. split; [reflexivity|]. split; [exact U|].
      intros Sr. rewrite Hrs. subst st1. simpl. rewrite Sr. reflexivity.
Qed.

(** ** The page limit *)

(** What the loop of [crawl_site] does keep: a turn starts below [max_pages]
    and adds at most one result per slot of the batch. *)
Lemma crawl_iteration_overshoot (max_pages : Z) (base : string) (schema : option string)
    (inc exc : option (list string)) (st : CrawlState) (env : Env) :
  crawl_continues max_pages st = true ->
  (Z.of_nat (List.length (results (fst (crawl_iteration base schema inc exc st env))))
   <= max_pages - 1 + Z.of_nat MAX_CONCURRENT_SCRAPES)%Z.
Proof.
  intros Hc. apply crawl_continues_true in Hc. destruct Hc as [_ Hlt].
  destruct (crawl_iteration_spec base schema inc exc st env)
    as (tasks & rs & added & t & _ & _ & _ & L & U & R & _).
  cbn zeta in *. rewrite R, length_app.
  pose proof (filter_length_le success rs) as Hf.
  assert (List.length rs = List.length tasks) by (rewrite <- U; now rewrite length_map).
  lia.
Qed.

(** X1.  [crawl_site] ends, with an empty queue or with at least [max_pages]
    results, and the number of its results stays below [max_pages] plus the
    size of a batch: it is at most [max_pages - 1 + MAX_CONCURRENT_SCRAPES]
    (and zero when that is negative). *)
Theorem crawl_results_bounded_by_limit_plus_batch :
  1 <= MAX_CONCURRENT_SCRAPES ->
  forall (seed : string) (max_pages : Z) (schema : option string)
         (inc exc : option (list string)) (env : Env),
    exists fuel st env',
      crawl_run fuel seed max_pages schema inc exc env = Some (st, env') /\
      crawl_site fuel seed max_pages schema inc exc env
      = Some ({| crawl_success := true; start_url := seed;
                 pages_crawled := List.length (results st);
                 crawl_results := results st |}, env') /\
      (queue st = [] \/ (max_pages <= Z.of_nat (List.length (results st)))%Z) /\
      (Z.of_nat (List.length (results st))
       <= Z.max 0 (max_pages - 1 + Z.of_nat MAX_CONCURRENT_SCRAPES))%Z.
Proof.
  intros HM seed max_pages schema inc exc env.
  destruct (crawl_loop_ends_with
              (fun st _ => (Z.of_nat (List.length (results st))
                            <= Z.max 0 (max_pages - 1 + Z.of_nat MAX_CONCURRENT_SCRAPES))%Z)
              max_pages (netloc seed) schema inc exc HM)
    with (st := crawl_start seed) (env := env)
    as (fuel & st & env' & Hr & HP & Hend).
  - intros st0 env0 _ Hc.
    pose proof (crawl_iteration_overshoot max_pages (netloc seed) schema inc exc st0 env0 Hc).
    lia.
  - simpl. lia.
  - exists fuel, st, env'. unfold crawl_site, crawl_run. rewrite Hr.
    split; [reflexivity|]. split; [reflexivity|]. split; [|exact HP].
    unfold crawl_continues in Hend. destruct (queue st); [now left|].
    right. now apply Z.ltb_ge.
Qed.

(** ** The retry policy *)

Lemma requests_cons_get (u : string) (t : list Event) :
  requests u (Get u :: t) = S (requests u t).
Proof. unfold requests. now rewrite count_occ_cons_eq. Qed.

Lemma requests_cons_other (u : string) (e : Event) (t : list Event) :
  e <> Get u -> requests u (e :: t) = requests u t.
Proof. intros H. unfold requests. now rewrite count_occ_cons_neq. Qed.

(** C4, as the code has it.  [_fetch_page] retries every failure, permanent
    or transient alike: when the first request fails, with whatever
    exception, a second request follows; and when every request fails, for
    whatever reason, three requests are sent before the fetch gives up. *)
Theorem fetch_page_retries_every_failure :
  forall (url : string) (env : Env) (e : Exn),
    outcome_error (fst (http_get (world env) url)) = Some e ->
    requests url (trace env) + 2 <= requests url (trace (snd (_fetch_page url env))) /\
    (always_fails url ->
     exists cause env',
       _fetch_page url env = (inl (RetryError cause), env') /\
       requests url (trace env') = requests url (trace env) + 3).
Proof.
  intros url env e He. split.
  - destruct (fetch_page_second_request url env e) as (t & Ht).
    { apply fetch_attempt_fails. exact He. }
    rewrite Ht, requests_app.
    rewrite requests_cons_other by discriminate. rewrite requests_cons_get.
    rewrite requests_cons_other by discriminate. rewrite requests_cons_get. lia.
  - intros Hfail.
    destruct (fetch_page_exhausts (fun _ => True) url) with (env := env)
      as (cause & env' & E & _ & T).
    { intro w. destruct (Hfail w) as (x & Hx). exists x. auto. }
    exists cause, env'. split; [exact E|].
    rewrite T, requests_app.
    repeat first [rewrite requests_cons_get | rewrite requests_cons_other by discriminate].
    cbn. lia.
Qed.

(** C9.  When every request to a URL fails transiently, [_fetch_page] sends
    exactly three requests, sleeps between them for waits that do not shrink,
    and raises; [scrape_single] then returns a failure that carries the URL
    and the exception of the last attempt, not a success. *)
Theorem fetch_page_gives_up_after_three_attempts :
  forall (url : string),
    fails_transiently url ->
    forall (schema : option string) (include_raw clean_content : bool) (env : Env),
    exists cause env',
      _fetch_page url env = (inl (RetryError cause), env') /\
      transient cause = true /\
      trace env' = trace env ++
        [FetchCall url; Get url; Backoff (wait_exponential 1 2 10 1);
         Get url; Backoff (wait_exponential 1 2 10 2); Get url] /\
      requests url (trace env') = requests url (trace env) + 3 /\
      (wait_exponential 1 2 10 1 <= wait_exponential 1 2 10 2)%Z /\
      scrape_single url schema include_raw clean_content env
      = (inr (ScrapeFailed url (RetryError cause)), env').
Proof.
  intros url Hfail schema include_raw clean_content env.
  destruct (fetch_page_exhausts (fun e => transient e = true) url Hfail env)
    as (cause & env' & E & HP & T).
  exists cause, env'. split; [exact E|]. split; [exact HP|]. split; [exact T|].
  split; [|split].
  - rewrite T, requests_app.
    repeat first [rewrite requests_cons_get | rewrite requests_cons_other by discriminate].
    cbn. lia.
  - apply wait_exponential_monotone. lia.
  - apply scrape_single_failure. exact E.
Qed.

(** ** Page types of a sitemap *)

Lemma map_iteration_types (url base : string) (st : MapState) (env : Env) :
  Forall (fun e => entry_type e = first_match url_rules "other" (lower (entry_url e)))
         (site_map st) ->
  Forall (fun e => entry_type e = first_match url_rules "other" (lower (entry_url e)))
         (site_map (fst (map_iteration url base st env))).
Proof.
  intros H. destruct (map_queue st) as [|c rest] eqn:Hq.
  - unfold map_iteration. rewrite Hq. exact H.
  - destruct (map_iteration_spec url base c rest st env Hq)
      as [(S & _) | (e & added & S & Ty & U & _)]; cbn zeta in *; rewrite S; [exact H|].
    apply Forall_app. split; [exact H|]. constructor; [|constructor]. congruence.
Qed.

(** C8, as the code has it.  Whenever [_classify_page_type] returns, the
    type is the label of the first rule that holds of the lower-cased URL,
    in the order contact/about/team, blog/news/article,
    product/service/solution, pricing/plan, then the URL string ending in
    [/] or [.html], and [other] when none holds; so it is one of the six
    page types, and so is the type of every entry of a sitemap, which is the
    one the rules give the entry's URL. *)
Theorem classify_page_type_first_match :
  forall (url : string) (soup : Soup) (seed : string) (max_pages : Z) (env : Env),
    _classify_page_type url soup =
      match title_lower soup with
      | inl e => inl e
      | inr _ => inr (first_match url_rules "other" (lower url))
      end /\
    match _classify_page_type url soup with
    | inr t => In t page_types
    | inl _ => True
    end /\
    exists fuel payload env',
      map_site fuel seed max_pages env = Some (payload, env') /\
      Forall (fun e => entry_type e = first_match url_rules "other" (lower (entry_url e))
                       /\ In (entry_type e) page_types)
             (sitemap payload).
Proof.
  intros url soup seed max_pages env. split; [apply classify_page_type_eq|]. split.
  - destruct (_classify_page_type url soup) as [e|t] eqn:E; [exact I|].
    eapply classify_page_type_in_enum. exact E.
  - destruct (map_loop_ends_with
                (fun st _ => Forall (fun e => entry_type e
                                              = first_match url_rules "other" (lower (entry_url e)))
                                    (site_map st))
                max_pages seed (netloc seed))
      with (st := map_start seed) (env := env)
      as (fuel & st & env' & Hr & HP & _).
    + intros st0 env0 H _. now apply map_iteration_types.
    + constructor.
    + exists fuel. unfold map_site, map_run. rewrite Hr.
      eexists _, env'. split; [reflexivity|]. simpl.
      eapply Forall_impl; [|exact HP]. intros e He. split; [exact He|].
      rewrite He. apply first_match_url_rules_in_page_types.
Qed.

(** ** What the normalizer strips *)

(** Induction on documents: a property of strings that passes from the
    contents of a tag to the tag holds of every node. *)
Lemma Node_induction (P : Node -> Prop) :
  (forall s, P (NavigableString s)) ->
  (forall name attrs contents, Forall P contents -> P (Tag name attrs contents)) ->
  forall n, P n.
Proof.
  intros Hs Ht. fix IH 1. intros [s | name attrs contents]; [apply Hs|].
  apply Ht. induction contents as [|c cs IHcs]; constructor; [apply IH | exact IHcs].
Qed.

Lemma flat_map_nil {A B : Type} (f : A -> list B) (l : list A) :
  Forall (fun x => f x = []) l -> flat_map f l = [].
Proof.
  induction 1 as [|x l Hx _ IH]; simpl; [reflexivity|]. now rewrite Hx, IH.
Qed.

(** After [decompose_all names], no tag with one of the names is left, at
    any depth. *)
Lemma decompose_in_removes (names : list string) (n : Node) :
  find_all (named names) (decompose_in names n) = [].
Proof.
  induction n as [s | name attrs contents IH] using Node_induction; [reflexivity|].
  cbn [decompose_in]. destruct (mem name names) eqn:Hm; [reflexivity|].
  unfold find_all. cbn [flat_map find_all_in named]. rewrite Hm, app_nil_r. cbn [app].
  induction IH as [|c cs Hc _ IHcs]; [reflexivity|].
  cbn [flat_map]. rewrite flat_map_app. unfold find_all in Hc. now rewrite Hc, IHcs.
Qed.

Lemma decompose_all_removes (names : list string) (soup : Soup) :
  find_all (named names) (decompose_all names soup) = [].
Proof.
  unfold decompose_all, find_all.
  induction soup as [|n soup IH]; [reflexivity|].
  cbn [flat_map]. rewrite flat_map_app, IH, app_nil_r.
  apply decompose_in_removes.
Qed.

(** X2.  The markdown is read off a document in which no [script], [style],
    [nav], [footer], [header] or [aside] tag is left at any depth; the plain
    text is read off one in which no [script], [style], [nav] or [footer] tag
    is left. *)
Theorem normalizer_strips_its_tags :
  forall (html : Html),
    let md_soup := decompose_all ["script"; "style"; "nav"; "footer"; "header"; "aside"]
                     (BeautifulSoup html) in
    let text_soup := decompose_all ["script"; "style"; "nav"; "footer"]
                       (BeautifulSoup html) in
    find_all (named ["script"; "style"; "nav"; "footer"; "header"; "aside"]) md_soup = [] /\
    _html_to_markdown html
    = String.concat (newline ++ newline)%string
        (map strip (filter (fun line => nonempty (strip line))
                           (split_on newline_char (get_text newline md_soup)))) /\
    find_all (named ["script"; "style"; "nav"; "footer"]) text_soup = [] /\
    _extract_text html = get_text " " text_soup.
Proof.
  intros html md_soup text_soup.
  split; [apply decompose_all_removes|]. split; [reflexivity|].
  split; [apply decompose_all_removes | reflexivity].
Qed.

(** ** The page limit of a sitemap *)

Lemma map_iteration_limit (max_pages : Z) (url base : string) (st : MapState) (env : Env) :
  map_continues max_pages st = true ->
  (Z.of_nat (List.length (site_map (fst (map_iteration url base st env)))) <= max_pages)%Z.
Proof.
  intros Hc. apply map_continues_true in Hc. destruct Hc as [(c & rest & Hq) Hlt].
  destruct (map_iteration_spec url base c rest st env Hq)
    as [(S & _) | (e & added & S & _)]; cbn zeta in *; rewrite S.
  - lia.
  - rewrite length_app. simpl. lia.
Qed.

(** X3.  [map_site], which takes one URL per turn, ends and returns at most
    [max_pages] entries (none when [max_pages] is negative), with
    [total_pages] their number. *)
Theorem map_site_keeps_page_limit :
  forall (url : string) (max_pages : Z) (env : Env),
    exists fuel payload env',
      map_site fuel url max_pages env = Some (payload, env') /\
      total_pages payload = List.length (sitemap payload) /\
      (Z.of_nat (total_pages payload) <= Z.max 0 max_pages)%Z.
Proof.
  intros url max_pages env.
  destruct (map_loop_ends_with
              (fun st _ => (Z.of_nat (List.length (site_map st)) <= Z.max 0 max_pages)%Z)
              max_pages url (netloc url))
    with (st := map_start url) (env := env)
    as (fuel & st & env' & Hr & HP & _).
  - intros st0 env0 _ Hc.
    pose proof (map_iteration_limit max_pages url (netloc url) st0 env0 Hc). lia.
  - simpl. lia.
  - exists fuel. unfold map_site, map_run. rewrite Hr.
    eexists _, env'. split; [reflexivity|]. split; [reflexivity | exact HP].
Qed.

(** ** Fuel *)

(** The payload of [crawl_site] does not depend on the fuel: any two
    amounts that let the loop end give the same payload and leave the same
    environment. *)
Theorem crawl_site_fuel_irrelevant :
  forall (fuel fuel' : nat) (seed : string) (max_pages : Z) (schema : option string)
         (inc exc : option (list string)) (env : Env)
         (r r' : CrawlPayload * Env),
    crawl_site fuel seed max_pages schema inc exc env = Some r ->
    crawl_site fuel' seed max_pages schema inc exc env = Some r' ->
    r = r'.
Proof.
  intros fuel fuel' seed max_pages schema inc exc env r r'.
  unfold crawl_site, crawl_run, crawl_loop.
  destruct (while_loop fuel _ _ _ env) as [[st e]|] eqn:E1; [|discriminate].
  destruct (while_loop fuel' _ _ _ env) as [[st' e']|] eqn:E2; [|discriminate].
  pose proof (while_loop_fuel_irrelevant _ _ _ _ _ _ _ _ E1 E2) as H.
  injection H as <- <-. congruence.
Qed.

(** ** More on the fetcher *)

Lemma fetch_attempt_success (url : string) (env env' : Env) (html : Html) (md : Metadata) :
  fetch_attempt url env = (inr (html, md), env') ->
  is_error_status (status_code md) = false /\ content_length md = html_len html.
Proof.
  unfold fetch_attempt, bind, client_get, raise_for_status, raise, ret.
  destruct (http_get (world env) url) as [[e|response] w]; [discriminate|].
  destruct (is_error_status (resp_status response)) eqn:Es; [discriminate|].
  intros H. injection H as <- <- _. simpl. auto.
Qed.

Lemma fetch_page_unfold (url : string) (env : Env) :
  _fetch_page url env =
  retrying (stop_after_attempt 3) (wait_exponential 1 2 10) 3 1 (fetch_attempt url)
    {| world := world env; trace := trace env ++ [FetchCall url] |}.
Proof. reflexivity. Qed.

Lemma retrying_backoff {A : Type} (stop : nat -> bool) (wait : nat -> Z)
    (n k : nat) (fn : M A) (d : Z) (env : Env) :
  (log (Backoff d) ;;; retrying stop wait n k fn) env =
  retrying stop wait n k fn {| world := world env; trace := trace env ++ [Backoff d] |}.
Proof. reflexivity. Qed.

(** The four ways a fetch can go: it returns what its first, second or third
    attempt returns, or it raises after three failures. *)
Lemma fetch_page_cases (url : string) (env : Env) :
  let w1 := wait_exponential 1 2 10 1 in
  let w2 := wait_exponential 1 2 10 2 in
  exists r env' t,
    _fetch_page url env = (r, env') /\
    trace env' = trace env ++ FetchCall url :: t /\
    ((t = [Get url] \/ t = [Get url; Backoff w1; Get url] \/
      t = [Get url; Backoff w1; Get url; Backoff w2; Get url]) /\
     (exists html md, r = inr (html, md) /\
                      is_error_status (status_code md) = false /\
                      content_length md = html_len html)
     \/
     (t = [Get url; Backoff w1; Get url; Backoff w2; Get url] /\
      exists cause, r = inl (RetryError cause))).
Proof.
  cbn zeta. rewrite fetch_page_unfold.
  set (env0 := {| world := world env; trace := trace env ++ [FetchCall url] |}).
  rewrite retrying_S.
  pose proof (fetch_attempt_trace url env0) as T1.
  destruct (fetch_attempt url env0) as [[e1|[h1 m1]] env1] eqn:A1; simpl in T1.
  - cbn [stop_after_attempt Nat.leb]. rewrite retrying_backoff.
    set (env1' := {| world := world env1; trace := trace env1 ++ _ |}).
    rewrite retrying_S.
    pose proof (fetch_attempt_trace url env1') as T2.
    destruct (fetch_attempt url env1') as [[e2|[h2 m2]] env2] eqn:A2; simpl in T2.
    + cbn [stop_after_attempt Nat.leb]. rewrite retrying_backoff.
      set (env2' := {| world := world env2; trace := trace env2 ++ _ |}).
      rewrite retrying_S.
      pose proof (fetch_attempt_trace url env2') as T3.
      destruct (fetch_attempt url env2') as [[e3|[h3 m3]] env3] eqn:A3; simpl in T3.
      * cbn [stop_after_attempt Nat.leb]. eexists _, _, _. split; [reflexivity|]. split.
        { rewrite T3. subst env2'. simpl. rewrite T2. subst env1'. simpl.
          rewrite T1. subst env0. simpl. rewrite <- !app_assoc. reflexivity. }
        right. split; [reflexivity|]. exists e3. reflexivity.
      * eexists _, _, _. split; [reflexivity|]. split.
        { rewrite T3. subst env2'. simpl. rewrite T2. subst env1'. simpl.
          rewrite T1. subst env0. simpl. rewrite <- !app_assoc. reflexivity. }
        left. split; [auto|]. exists h3, m3. split; [reflexivity|].
        eapply fetch_attempt_success. exact A3.
    + eexists _, _, _. split; [reflexivity|]. split.
      { rewrite T2. subst env1'. simpl. rewrite T1. subst env0. simpl.
        rewrite <- !app_assoc. reflexivity. }
      left. split; [auto|]. exists h2, m2. split; [reflexivity|].
      eapply fetch_attempt_success. exact A2.
  - eexists _, _, _. split; [reflexivity|]. split.
    { rewrite T1. subst env0. simpl. rewrite <- !app_assoc. reflexivity. }
    left. split; [auto|]. exists h1, m1. split; [reflexivity|].
    eapply fetch_attempt_success. exact A1.
Qed.

Lemma wait_exponential_fetch_range (attempt_number : nat) :
  (2 <= wait_exponential 1 2 10 attempt_number <= 10)%Z.
Proof. unfold wait_exponential. lia. Qed.

(** X4.  A call of [_fetch_page] sends at least one and at most three
    requests, all to its URL, sleeps once between two requests and each time
    between 2 and 10 seconds, and calls nothing else.  It raises only after
    three requests, and then a [RetryError]; when it returns, the status it
    reports is no error status and [content_length] is the length of the
    markup it returns. *)
Theorem fetch_page_sends_one_to_three_requests :
  forall (url : string) (env : Env),
  exists r env' t,
    _fetch_page url env = (r, env') /\
    trace env' = trace env ++ FetchCall url :: t /\
    1 <= requests url t <= 3 /\
    count_events is_request t = requests url t /\
    count_events is_fetch_call t = 0 /\
    count_events is_rate_limit t = 0 /\
    List.length (backoffs t) + 1 = requests url t /\
    Forall (fun d => (2 <= d <= 10)%Z) (backoffs t) /\
    match r with
    | inr (html, md) =>
        is_error_status (status_code md) = false /\ content_length md = html_len html
    | inl e => requests url t = 3 /\ exists cause, e = RetryError cause
    end.
Proof.
  intros url env.
  destruct (fetch_page_cases url env) as (r & env' & t & E & T & H). cbn zeta in H.
  exists r, env', t. split; [exact E|]. split; [exact T|].
  pose proof (wait_exponential_fetch_range 1) as R1.
  pose proof (wait_exponential_fetch_range 2) as R2.
  assert (G1 : requests url [Get url] = 1)
    by (rewrite requests_cons_get; reflexivity).
  assert (G2 : requests url [Get url; Backoff (wait_exponential 1 2 10 1); Get url] = 2)
    by (rewrite requests_cons_get, requests_cons_other by discriminate;
        rewrite requests_cons_get; reflexivity).
  assert (G3 : requests url [Get url; Backoff (wait_exponential 1 2 10 1); Get url;
                             Backoff (wait_exponential 1 2 10 2); Get url] = 3)
    by (rewrite requests_cons_get, requests_cons_other by discriminate;
        rewrite requests_cons_get, requests_cons_other by discriminate;
        rewrite requests_cons_get; reflexivity).
  destruct H as [[[ -> | [ -> | -> ]] (html & md & -> & Hs & Hl)] | [ -> (cause & ->)]];
    first [rewrite G1 | rewrite G2 | rewrite G3]; cbn [backoffs flat_map app List.length
      count_events filter is_request is_fetch_call is_rate_limit];
    repeat split; auto; try lia; try (exists cause; reflexivity);
    repeat constructor; lia.
Qed.

(** ** More on single mode and on the links of a page *)







(** ** The results of a crawl *)

Lemma NoDup_app_disjoint {A : Type} (l l' : list A) :
  NoDup (l ++ l') -> forall a, In a l -> ~ In a l'.
Proof.
  induction l as [|x l IH]; simpl; intros ND a Ha; [contradiction|].
  inversion ND as [|? ? Hx ND']; subst. destruct Ha as [<-|Ha].
  - intros Hin. apply Hx. apply in_or_app. now right.
  - now apply IH.
Qed.

Lemma In_map_filter {A B : Type} (f : A -> B) (p : A -> bool) (l : list A) (y : B) :
  In y (map f (filter p l)) -> In y (map f l).
Proof.
  intros H. apply in_map_iff in H. destruct H as (x & <- & Hx).
  apply filter_In in Hx. apply in_map. apply Hx.
Qed.

Lemma NoDup_map_filter {A B : Type} (f : A -> B) (keep : A -> bool) (xs : list A)
    (ND : NoDup (map f xs)) :
  NoDup (map f (filter keep xs)).
Proof.
  revert ND. induction xs as [|x xs IH]; simpl; intros ND; [constructor|].
  inversion ND as [|? ? Hx ND']; subst. destruct (keep x); [|now apply IH].
  simpl. constructor; [|now apply IH].
  intros Hin. apply Hx. eapply In_map_filter. exact Hin.
Qed.

Lemma crawl_iteration_results (seed base : string) (schema : option string)
    (inc exc : option (list string)) (st : CrawlState) (env : Env) :
  crawl_results_invariant seed base inc exc st ->
  crawl_results_invariant seed base inc exc
    (fst (crawl_iteration base schema inc exc st env)).
Proof.
  intros (ND & I & NR & SR & FQ).
  apply Forall_app in FQ. destruct FQ as [FV FQ].
  destruct (crawl_iteration_spec base schema inc exc st env)
    as (tasks & rs & added & t & V & IT & N & _ & U & R & Q & F & _).
  cbn zeta in *. unfold crawl_results_invariant. rewrite V, R, Q.
  pose proof (N ND) as ND'. rewrite V in ND'.
  assert (IR : incl (map result_url (filter success rs)) tasks).
  { intros y Hy. rewrite <- U. eapply In_map_filter. exact Hy. }
  split; [exact ND'|]. split; [|split; [|split]].
  - rewrite map_app. apply incl_app.
    + apply incl_appl. exact I.
    + apply incl_appr. exact IR.
  - rewrite map_app. apply NoDup_app.
    + exact NR.
    + apply NoDup_map_filter. rewrite U. eapply NoDup_app_remove_l. exact ND'.
    + intros a Ha Hb. apply (NoDup_app_disjoint _ _ ND' a); [apply I, Ha | apply IR, Hb].
  - apply Forall_app. split; [exact SR|].
    apply Forall_forall. intros r Hr. apply filter_In in Hr. apply Hr.
  - rewrite Forall_forall in FQ.
    repeat (apply Forall_app; split); auto.
    + apply Forall_forall. intros u Hu. apply FQ. eapply incl_firstn, IT, Hu.
    + apply Forall_forall. intros u Hu. apply FQ. eapply incl_skipn, Hu.
    + eapply Forall_impl; [|exact F]. intros l Hl. right.
      unfold enqueued in Hl. apply andb_true_iff in Hl. apply Hl.
Qed.

Lemma crawl_run_results (seed : string) (max_pages : Z) (schema : option string)
    (inc exc : option (list string)) (env : Env) :
  1 <= MAX_CONCURRENT_SCRAPES ->
  exists fuel st env',
    crawl_run fuel seed max_pages schema inc exc env = Some (st, env') /\
    crawl_results_invariant seed (netloc seed) inc exc st.
Proof.
  intros HM. unfold crawl_run.
  destruct (crawl_loop_ends_with
              (fun st _ => crawl_results_invariant seed (netloc seed) inc exc st)
              max_pages (netloc seed) schema inc exc HM)
    with (st := crawl_start seed) (env := env)
    as (fuel & st & env' & Hr & HP & _).
  - intros st0 env0 H _. now apply crawl_iteration_results.
  - unfold crawl_results_invariant. simpl.
    split; [constructor|]. split; [apply incl_nil_l|]. split; [constructor|].
    split; [constructor|]. constructor; [now left | constructor].
  - exists fuel, st, env'. auto.
Qed.

Lemma crawl_results_of_invariant (seed base : string) (inc exc : option (list string))
    (st : CrawlState) :
  crawl_results_invariant seed base inc exc st ->
  Forall (fun r => seed_or_filtered seed base inc exc (result_url r)) (results st).
Proof.
  intros (_ & I & _ & _ & FQ). apply Forall_app in FQ. destruct FQ as [FV _].
  rewrite Forall_forall in FV. apply Forall_forall. intros r Hr.
  apply FV, I, in_map, Hr.
Qed.

(** X7.  The results of a crawl are successful scrapes of distinct URLs, and
    each of them is the seed or a URL the filter let in: of the seed's host,
    matching no exclude pattern, and matching an include pattern when
    include patterns are given. *)
Theorem crawl_results_distinct_and_filtered :
  1 <= MAX_CONCURRENT_SCRAPES ->
  forall (seed : string) (max_pages : Z) (schema : option string)
         (inc exc : option (list string)) (env : Env),
  exists fuel payload env',
    crawl_site fuel seed max_pages schema inc exc env = Some (payload, env') /\
    NoDup (map result_url (crawl_results payload)) /\
    Forall (fun r =>
              success r = true /\
              (result_url r = seed \/
               (netloc (result_url r) = netloc seed /\
                existsb (fun p => re_search p (result_url r)) (or_empty exc) = false /\
                (truthy inc = true ->
                 existsb (fun p => re_search p (result_url r)) (or_empty inc) = true))))
           (crawl_results payload).
Proof.
  intros HM seed max_pages schema inc exc env.
  destruct (crawl_run_results seed max_pages schema inc exc env HM)
    as (fuel & st & env' & Hr & Inv).
  pose proof (crawl_results_of_invariant _ _ _ _ _ Inv) as FR.
  destruct Inv as (_ & _ & NR & SR & _).
  exists fuel. unfold crawl_site. rewrite Hr.
  eexists _, env'. split; [reflexivity|]. cbn [crawl_results]. split; [exact NR|].
  rewrite Forall_forall in *. intros r Hr'. split; [apply SR, Hr'|].
  destruct (FR r Hr') as [Hs | Hf]; [now left | right].
  unfold _should_crawl in Hf. rewrite !search_any_existsb, truthy_or_empty in Hf.
  destruct (netloc (result_url r) =? netloc seed) eqn:En; [|discriminate].
  apply String.eqb_eq in En. simpl in Hf. split; [exact En|].
  destruct (existsb _ (or_empty exc)); [discriminate|]. split; [reflexivity|].
  intros Ht. rewrite Ht in Hf.
  destruct (existsb _ (or_empty inc)); [reflexivity | discriminate].
Qed.

Lemma page_leads_spec (pages : list ScrapeResult) :
  List.length (page_leads pages) <= List.length pages /\
  Forall (fun info => truthy_value info = true) (page_leads pages).
Proof.
  unfold page_leads. induction pages as [|page pages [IH1 IH2]]; simpl.
  - split; [lia | constructor].
  - destruct (result_lead_info page) as [info|]; simpl; [|split; [lia | exact IH2]].
    destruct (truthy_value info) eqn:Et; simpl; split; try lia; auto.
Qed.

(** The leads are the records of the pages, in order, without the empty
    ones. *)
Lemma page_leads_filter (pages : list ScrapeResult) :
  Forall (fun page => success page = true) pages ->
  exists infos,
    Forall2 (fun page info => result_lead_info page = Some info) pages infos /\
    page_leads pages = filter truthy_value infos.
Proof.
  unfold page_leads. induction pages as [|page pages IH]; intros S.
  - exists []. split; [constructor | reflexivity].
  - inversion S as [|? ? Sp S']; subst. destruct (IH S') as (infos & F & E).
    destruct page as [u md c x record l|u e]; [|discriminate].
    exists (json_loads record :: infos). split; [constructor; [reflexivity | exact F]|].
    cbn [flat_map result_lead_info filter]. rewrite E.
    destruct (truthy_value (json_loads record)); reflexivity.
Qed.

(** X8.  [discover_from_directory] returns, in the order of the crawl, the
    record of every crawled page whose record is not empty, and nothing
    else: so at most as many records as the crawl has pages.  The pages are
    distinct, and each but the directory itself is a page of the directory's
    host whose URL matches [/company/], [/business/] or [/listing/]. *)
Theorem directory_leads_come_from_listing_pages :
  1 <= MAX_CONCURRENT_SCRAPES ->
  forall (directory_url : string) (max_listings : Z) (env : Env),
  exists fuel crawl_result leads env',
    crawl_site fuel directory_url max_listings None (Some directory_patterns) None env
    = Some (crawl_result, env') /\
    discover_from_directory fuel directory_url max_listings env = Some (leads, env') /\
    (exists infos,
        Forall2 (fun page info => result_lead_info page = Some info)
                (crawl_results crawl_result) infos /\
        leads = filter truthy_value infos) /\
    List.length leads <= pages_crawled crawl_result /\
    Forall (fun info => truthy_value info = true) leads /\
    NoDup (map result_url (crawl_results crawl_result)) /\
    Forall (fun page =>
              result_url page = directory_url \/
              (netloc (result_url page) = netloc directory_url /\
               existsb (fun p => re_search p (result_url page)) directory_patterns = true))
           (crawl_results crawl_result).
Proof.
  intros HM directory_url max_listings env.
  destruct (crawl_run_results directory_url max_listings None
              (Some directory_patterns) None env HM)
    as (fuel & st & env' & Hr & Inv).
  pose proof (crawl_results_of_invariant _ _ _ _ _ Inv) as FR.
  destruct Inv as (_ & _ & NR & SR & _).
  destruct (page_leads_spec (results st)) as [PL PT].
  exists fuel. unfold discover_from_directory, crawl_site. rewrite Hr.
  eexists _, _, env'. split; [reflexivity|]. split; [reflexivity|].
  cbn [crawl_results pages_crawled].
  split; [apply page_leads_filter, SR|].
  split; [exact PL|]. split; [exact PT|].
  split; [exact NR|].
  eapply Forall_impl; [|exact FR]. intros r [Hs | Hf]; [now left | right].
  unfold _should_crawl in Hf. rewrite !search_any_existsb in Hf.
  destruct (netloc (result_url r) =? netloc directory_url) eqn:En; [|discriminate].
  apply String.eqb_eq in En. split; [exact En|].
  cbn [negb truthy or_empty andb directory_patterns] in Hf.
  destruct (existsb _ directory_patterns) eqn:Ee; [reflexivity | discriminate].
Qed.

(** ** The depth of a URL *)

Lemma remove_first_unfold (old s : string) :
  remove_first old s =
  if String.prefix old s then drop (String.length old) s
  else match s with
       | EmptyString => EmptyString
       | String c s' => String c (remove_first old s')
       end.
Proof. destruct s; reflexivity. Qed.

Lemma prefix_app (b r : string) : String.prefix b (b ++ r) = true.
Proof.
  induction b as [|c b IH]; simpl; [destruct r; reflexivity|].
  destruct (ascii_dec c c); [exact IH | contradiction].
Qed.

Lemma drop_app (b r : string) : drop (String.length b) (b ++ r) = r.
Proof. induction b as [|c b IH]; simpl; [reflexivity | exact IH]. Qed.

Lemma remove_first_prefix (b r : string) : remove_first b (b ++ r) = r.
Proof. rewrite remove_first_unfold, prefix_app. apply drop_app. Qed.

Lemma rstrip_slash_app_nil (b : string) : b = (b ++ EmptyString)%string.
Proof. induction b as [|c b IH]; simpl; congruence. Qed.

Lemma url_depth_below (url base_url rest : string) :
  rstrip_slash (url_path url) = (rstrip_slash (url_path base_url) ++ rest)%string ->
  _get_url_depth url base_url = List.length (filter nonempty (split_on "/" rest)).
Proof.
  intros Hu. unfold _get_url_depth. rewrite Hu.
  destruct (nonempty (rstrip_slash (url_path base_url))) eqn:Eb.
  - rewrite remove_first_prefix. reflexivity.
  - destruct (rstrip_slash (url_path base_url)); [reflexivity | discriminate].
Qed.

Lemma url_depth_zero (url : string) : _get_url_depth url url = 0.
Proof.
  rewrite (url_depth_below url url EmptyString); [reflexivity|].
  apply rstrip_slash_app_nil.
Qed.

(** X9.  [_get_url_depth] counts the path segments of a URL below the
    base: when the path of the URL, without its trailing slashes, is the
    path of the base, without its own, followed by [rest], the depth is the
    number of non-empty segments of [rest].  So the base itself, and every
    URL with the same path, has depth 0. *)
Theorem url_depth_counts_segments_below_base :
  forall (url base_url rest : string),
    rstrip_slash (url_path url) = (rstrip_slash (url_path base_url) ++ rest)%string ->
    _get_url_depth url base_url = List.length (filter nonempty (split_on "/" rest)) /\
    _get_url_depth base_url base_url = 0.
Proof.
  intros url base_url rest H.
  split; [apply url_depth_below, H | apply url_depth_zero].
Qed.

(** ** The entries of a sitemap *)

Lemma map_page_entry (url current_url : string) (env env' : Env)
    (page_info : SitemapEntry) (soup : Soup) :
  map_page url current_url env = (inr (page_info, soup), env') ->
  entry_url page_info = current_url /\
  entry_depth page_info = _get_url_depth current_url url.
Proof.
  unfold map_page, bind at 1.
  destruct (_fetch_page current_url env) as [[e|fetched] env1]; [discriminate|].
  unfold bind, lift, ret.
  destruct (_classify_page_type current_url (BeautifulSoup (fst fetched))) as [e|t];
    [discriminate|].
  intros H. injection H as <- _ _. split; reflexivity.
Qed.

Lemma map_iteration_sitemap (url base : string) (st : MapState) (env : Env) :
  sitemap_invariant url st ->
  sitemap_invariant url (fst (map_iteration url base st env)).
Proof.
  intros (ND & I & NE & FD). unfold map_iteration.
  destruct (map_queue st) as [|c rest]; [repeat split; assumption|].
  destruct (mem c (map_visited st)) eqn:Hm; [repeat split; assumption|].
  apply mem_false_iff in Hm.
  assert (ND' : NoDup (map_visited st ++ [c])).
  { apply NoDup_app; [exact ND | constructor; [easy | constructor] |].
    intros x Hx [<-|[]]. contradiction. }
  destruct (map_page url c env) as [[e|[page_info soup]] env1] eqn:Ep;
    unfold sitemap_invariant; cbn [fst map_visited site_map].
  - split; [exact ND'|]. split; [apply incl_appl, I|]. split; assumption.
  - destruct (map_page_entry _ _ _ _ _ _ Ep) as [Hu Hd].
    split; [exact ND'|]. rewrite map_app. cbn [map]. rewrite Hu. split; [|split].
    + apply incl_app; [apply incl_appl, I | apply incl_appr, incl_refl].
    + apply NoDup_app; [exact NE | constructor; [easy | constructor] |].
      intros x Hx [<-|[]]. apply Hm, I, Hx.
    + apply Forall_app. split; [exact FD|]. constructor; [|constructor].
      rewrite Hu. exact Hd.
Qed.

(** X10.  A sitemap never lists a URL twice, and every entry carries the
    depth of its URL below the seed; the entry of the seed itself, if there
    is one, has depth 0. *)
Theorem sitemap_entries_distinct_with_depth :
  forall (url : string) (max_pages : Z) (env : Env),
  exists fuel payload env',
    map_site fuel url max_pages env = Some (payload, env') /\
    NoDup (map entry_url (sitemap payload)) /\
    Forall (fun e => entry_depth e = _get_url_depth (entry_url e) url /\
                     (entry_url e = url -> entry_depth e = 0))
           (sitemap payload).
Proof.
  intros url max_pages env.
  destruct (map_loop_ends_with (fun st _ => sitemap_invariant url st)
              max_pages url (netloc url))
    with (st := map_start url) (env := env)
    as (fuel & st & env' & Hr & (_ & _ & NE & FD) & _).
  - intros st0 env0 H _. now apply map_iteration_sitemap.
  - unfold sitemap_invariant. simpl.
    split; [constructor|]. split; [apply incl_nil_l|]. split; constructor.
  - exists fuel. unfold map_site, map_run. rewrite Hr.
    eexists _, env'. split; [reflexivity|]. cbn [sitemap]. split; [exact NE|].
    eapply Forall_impl; [|exact FD]. intros e He. split; [exact He|].
    intros Hu. rewrite He, Hu.
    apply (url_depth_zero url).
Qed.

(** ** Search mode *)

Lemma count_events_app (kind : Event -> bool) (a b : list Event) :
  count_events kind (a ++ b) = count_events kind a + count_events kind b.
Proof. unfold count_events. rewrite filter_app, length_app. reflexivity. Qed.

Lemma count_events_cons (kind : Event -> bool) (e : Event) (t : list Event) :
  count_events kind (e :: t) = (if kind e then 1 else 0) + count_events kind t.
Proof. unfold count_events. simpl. destruct (kind e); reflexivity. Qed.

(** What one fetch leaves in the trace, in numbers. *)
Lemma fetch_page_counts (url : string) (env : Env) :
  exists r env' t,
    _fetch_page url env = (r, env') /\
    trace env' = trace env ++ t /\
    count_events is_fetch_call t = 1 /\
    count_events is_rate_limit t = 0 /\
    1 <= count_events is_request t <= 3 /\
    match r with
    | inl e => count_events is_request t = 3 /\ exists cause, e = RetryError cause
    | inr _ => True
    end.
Proof.
  destruct (fetch_page_cases url env) as (r & env' & t & E & T & H). cbn zeta in H.
  exists r, env', (FetchCall url :: t). split; [exact E|]. split; [exact T|].
  destruct H as [[[ -> | [ -> | -> ]] (html & md & -> & _)] | [ -> (cause & ->)]];
    cbn [count_events filter is_request is_fetch_call is_rate_limit List.length];
    repeat split; try lia; exists cause; reflexivity.
Qed.

(** All that a scrape leaves in the trace is left by its fetch. *)
Lemma scrape_single_trace (url : string) (schema : option string)
    (include_raw clean_content : bool) (env : Env) :
  trace (snd (scrape_single url schema include_raw clean_content env))
  = trace (snd (_fetch_page url env)).
Proof.
  destruct (_fetch_page url env) as [[e|[html md]] env1] eqn:F.
  - rewrite (scrape_single_failure _ _ _ _ _ _ _ F). reflexivity.
  - unfold scrape_single, try_except, bind at 1. rewrite F. cbn [fst snd].
    unfold bind at 1.
    destruct schema as [sch|]; [destruct (schema_truthy sch)|].
    + unfold bind at 1.
      destruct (llm_extract_trace (_extract_text html) sch url env1) as (d & env2 & -> & T2).
      unfold ret at 1. unfold bind at 1, _extract_lead_info.
      destruct (llm_extract_trace (_extract_text html) lead_schema url env2)
        as (li & env3 & -> & T3).
      unfold ret. cbn [snd]. congruence.
    + unfold ret at 1. unfold bind at 1, _extract_lead_info.
      destruct (llm_extract_trace (_extract_text html) lead_schema url env1)
        as (li & env3 & -> & T3).
      unfold ret. cbn [snd]. exact T3.
    + unfold ret at 1. unfold bind at 1, _extract_lead_info.
      destruct (llm_extract_trace (_extract_text html) lead_schema url env1)
        as (li & env3 & -> & T3).
      unfold ret. cbn [snd]. exact T3.
Qed.

Lemma scrape_single_counts (url : string) (schema : option string)
    (include_raw clean_content : bool) (env : Env) :
  exists r env' t,
    scrape_single url schema include_raw clean_content env = (inr r, env') /\
    result_url r = url /\
    trace env' = trace env ++ t /\
    count_events is_fetch_call t = 1 /\
    count_events is_rate_limit t = 0 /\
    1 <= count_events is_request t <= 3.
Proof.
  destruct (scrape_single_spec url schema include_raw clean_content env)
    as (r & env' & t0 & E & U & _).
  destruct (fetch_page_counts url env) as (r0 & env1 & t & F & T & C1 & C2 & C3 & _).
  exists r, env', t. split; [exact E|]. split; [exact U|]. split; [|auto].
  pose proof (scrape_single_trace url schema include_raw clean_content env) as S.
  rewrite E, F in S. exact (eq_trans S T).
Qed.

(** The loop over the hits: one scrape and one sleep per hit, and only the
    successes are kept. *)
Lemma scrape_hits_counts (schema : option string) (hits : list Node) :
  forall found env, exists added env' t,
    scrape_hits hits schema found env = (inr (found ++ added), env') /\
    trace env' = trace env ++ t /\
    List.length added <= List.length hits /\
    Forall (fun r => success r = true) added /\
    count_events is_fetch_call t = List.length hits /\
    count_events is_rate_limit t = List.length hits /\
    count_events is_request t <= 3 * List.length hits.
Proof.
  induction hits as [|h hits IH]; intros found env; cbn [scrape_hits].
  - exists [], env, []. rewrite !app_nil_r. unfold ret.
    repeat split; auto.
  - set (url := if startswith _ "//" then _ else _).
    destruct (scrape_single_counts url schema true true env)
      as (r & env1 & t1 & E & _ & T1 & F1 & R1 & Q1).
    unfold bind at 1. rewrite E. unfold bind at 1, log at 1.
    set (found1 := if success r then found ++ [r] else found).
    destruct (IH found1 {| world := world env1; trace := trace env1 ++ [RateLimit] |})
      as (added & env' & t & E' & T & LA & SA & F & R & Q).
    exists ((if success r then [r] else []) ++ added), env', (t1 ++ RateLimit :: t).
    split.
    { rewrite E'. subst found1. destruct (success r); rewrite <- ?app_assoc; reflexivity. }
    split.
    { rewrite T. cbn [trace]. rewrite T1, <- !app_assoc. reflexivity. }
    rewrite !count_events_app, !count_events_cons.
    cbn [is_fetch_call is_rate_limit is_request List.length].
    split; [destruct (success r); simpl; lia|].
    split; [|lia].
    destruct (success r) eqn:Sr; [|exact SA].
    constructor; [exact Sr | exact SA].
Qed.

(** [search_and_scrape] on the whole. *)
Lemma slice_to_length {A : Type} (n : Z) (xs : list A) :
  List.length (slice_to n xs) <= List.length xs /\
  ((0 <= n)%Z -> (Z.of_nat (List.length (slice_to n xs)) <= n)%Z) /\
  ((n < 0)%Z -> List.length (slice_to n xs) = List.length xs - Z.to_nat (- n)).
Proof.
  unfold slice_to. destruct (0 <=? n)%Z eqn:E; rewrite length_firstn.
  - apply Z.leb_le in E. repeat split; lia.
  - apply Z.leb_gt in E. repeat split; lia.
Qed.

Lemma search_and_scrape_spec (query : string) (num_results : Z)
    (schema : option string) (env : Env) :
  exists payload env' t,
    search_and_scrape query num_results schema env = (inr payload, env') /\
    trace env' = trace env ++ t /\
    search_success payload =
      match fst (_fetch_page ("https://html.duckduckgo.com/html/?q=" ++ query)%string env)
      with inl _ => false | inr _ => true end /\
    match payload with
    | SearchCompleted q n found =>
        q = query /\ n = List.length found /\
        Forall (fun r => success r = true) found /\
        List.length found <= count_events is_rate_limit t /\
        match fst (_fetch_page ("https://html.duckduckgo.com/html/?q=" ++ query)%string env)
        with
        | inr fetched =>
            let hits := select_class "result__a" (BeautifulSoup (fst fetched)) in
            count_events is_rate_limit t = List.length (slice_to num_results hits) /\
            count_events is_rate_limit t <= List.length hits
        | inl _ => False
        end /\
        ((0 <= num_results)%Z ->
         (Z.of_nat (count_events is_rate_limit t) <= num_results)%Z) /\
        ((num_results < 0)%Z ->
         match fst (_fetch_page ("https://html.duckduckgo.com/html/?q=" ++ query)%string env)
         with
         | inr fetched =>
             count_events is_rate_limit t
             = List.length (select_class "result__a" (BeautifulSoup (fst fetched)))
               - Z.to_nat (- num_results)
         | inl _ => False
         end) /\
        count_events is_fetch_call t = 1 + count_events is_rate_limit t /\
        count_events is_request t <= 3 * count_events is_fetch_call t
    | SearchFailed q e =>
        q = query /\ (exists cause, e = RetryError cause) /\
        count_events is_fetch_call t = 1 /\
        count_events is_rate_limit t = 0 /\
        count_events is_request t = 3
    end.
Proof.
  unfold search_and_scrape, try_except, bind at 1.
  destruct (fetch_page_counts ("https://html.duckduckgo.com/html/?q=" ++ query)%string env)
    as (r0 & env1 & t0 & F & T0 & C1 & C2 & C3 & C4).
  rewrite F. cbn [fst]. destruct r0 as [e|fetched].
  - destruct C4 as [C4 (cause & ->)]. unfold ret.
    eexists _, env1, t0. split; [reflexivity|]. split; [exact T0|].
    split; [reflexivity|]. repeat split; auto. exists cause. reflexivity.
  - unfold bind at 1.
    destruct (slice_to_length num_results
                (select_class "result__a" (BeautifulSoup (fst fetched))))
      as (HL & HP & HN).
    set (hits := slice_to num_results _) in *.
    destruct (scrape_hits_counts schema hits [] env1)
      as (added & env' & t & E & T & LA & SA & Fc & Rc & Qc).
    rewrite E. unfold ret. cbn [app].
    eexists _, env', (t0 ++ t). split; [reflexivity|].
    split; [rewrite T, T0, <- app_assoc; reflexivity|].
    split; [reflexivity|].
    rewrite !count_events_app. cbn zeta.
    repeat split; auto; lia.
Qed.


(** ** Dictionaries *)

Lemma dict_get_set {V : Type} (k k' : string) (v : V) (d : Dict V) :
  dict_get k (dict_set k' v d) = if k =? k' then Some v else dict_get k d.
Proof.
  induction d as [|[k0 v0] d IH]; simpl; [reflexivity|].
  destruct (k' =? k0) eqn:E1; simpl.
  - apply String.eqb_eq in E1. subst k0. destruct (k =? k'); reflexivity.
  - rewrite IH. destruct (k =? k0) eqn:E2, (k =? k') eqn:E3; try reflexivity.
    apply String.eqb_eq in E2, E3. subst. rewrite String.eqb_refl in E1. discriminate.
Qed.

Lemma dict_has_set {V : Type} (k k' : string) (v : V) (d : Dict V) :
  dict_has k (dict_set k' v d) = (k =? k') || dict_has k d.
Proof. unfold dict_has. rewrite dict_get_set. destruct (k =? k'); reflexivity. Qed.

Lemma dict_has_update {V : Type} (k : string) (items : Dict V) :
  forall d, dict_has k d = true -> dict_has k (dict_update d items) = true.
Proof.
  unfold dict_update. induction items as [|[k' v] items IH]; intros d H; simpl; [exact H|].
  apply IH. rewrite dict_has_set, H. apply orb_true_r.
Qed.

(** ** Discovery by industry *)

Lemma collect_leads_spec (query : string) (found : list ScrapeResult) :
  forall all_leads,
    match collect_leads query found all_leads with
    | inr leads => exists new, leads = all_leads ++ new /\
                               List.length new <= List.length found /\
                               Forall has_source new
    | inl e => e = TypeError
    end.
Proof.
  induction found as [|r found IH]; intros all_leads; cbn [collect_leads].
  - exists []. rewrite app_nil_r. repeat split; auto.
  - assert (Skip : match collect_leads query found all_leads with
                   | inr leads => exists new, leads = all_leads ++ new /\
                                              List.length new <= List.length (r :: found) /\
                                              Forall has_source new
                   | inl e => e = TypeError
                   end).
    { specialize (IH all_leads). destruct (collect_leads query found all_leads); [exact IH|].
      destruct IH as (new & -> & L & F). exists new. simpl. repeat split; auto. }
    destruct (result_lead_info r) as [info|]; [|exact Skip].
    destruct (truthy_value info); [|exact Skip].
    destruct info as [| | | | |fields]; try reflexivity.
    set (lead := dict_update _ fields).
    specialize (IH (all_leads ++ [lead])).
    destruct (collect_leads query found (all_leads ++ [lead])); [exact IH|].
    destruct IH as (new & -> & L & F). exists (lead :: new).
    rewrite <- app_assoc. split; [reflexivity|]. split; [simpl; lia|].
    constructor; [|exact F].
    split; apply dict_has_update; reflexivity.
Qed.

Lemma discover_queries_spec (num_results : nat) (queries : list string) :
  forall all_leads env, exists res env' t,
    discover_queries queries num_results all_leads env = (res, env') /\
    trace env' = trace env ++ t /\
    count_events is_rate_limit t <= num_results * List.length queries /\
    count_events is_fetch_call t <= List.length queries + count_events is_rate_limit t /\
    match res with
    | inr leads =>
        exists new, leads = all_leads ++ new /\
                    List.length new <= num_results * List.length queries /\
                    Forall has_source new /\
                    count_events is_fetch_call t
                    = List.length queries + count_events is_rate_limit t
    | inl e => e = TypeError
    end.
Proof.
  induction queries as [|query queries IH]; intros all_leads env; cbn [discover_queries].
  - exists (inr all_leads), env, []. rewrite !app_nil_r. split; [reflexivity|].
    split; [reflexivity|]. split; [unfold count_events; simpl; lia|]. split; [unfold count_events; simpl; lia|].
    exists []. rewrite app_nil_r. unfold count_events. simpl. repeat split; auto. lia.
  - destruct (search_and_scrape_spec query (Z.of_nat num_results) None env)
      as (payload & env1 & t1 & E & T1 & _ & P).
    rewrite E. cbn [List.length]. rewrite Nat.mul_succ_r.
    destruct payload as [q n found | q e].
    + destruct P as (_ & _ & _ & LF & _ & LR & _ & FC & _).
      specialize (LR (Nat2Z.is_nonneg num_results)). apply Nat2Z.inj_le in LR.
      pose proof (collect_leads_spec query found all_leads) as CL.
      destruct (collect_leads query found all_leads) as [e|leads1].
      * exists (inl e), env1, t1. split; [reflexivity|]. split; [exact T1|].
        split; [lia|]. split; [lia | exact CL].
      * destruct CL as (new1 & -> & L1 & F1).
        destruct (IH (all_leads ++ new1) env1) as (res & env' & t & E' & T & R & FB & M).
        exists res, env', (t1 ++ t). split; [exact E'|].
        split; [rewrite T, T1, <- app_assoc; reflexivity|].
        rewrite !count_events_app. split; [lia|]. split; [lia|].
        destruct res as [e'|leads]; [exact M|].
        destruct M as (new & -> & L & F & FE).
        exists (new1 ++ new). rewrite <- app_assoc. split; [reflexivity|].
        rewrite length_app. split; [lia|]. split; [|lia].
        apply Forall_app. split; assumption.
    + destruct P as (_ & _ & FC & RC & _).
      destruct (IH all_leads env1) as (res & env' & t & E' & T & R & FB & M).
      exists res, env', (t1 ++ t). split; [exact E'|].
      split; [rewrite T, T1, <- app_assoc; reflexivity|].
      rewrite !count_events_app. split; [lia|]. split; [lia|].
      destruct res as [e'|leads]; [exact M|].
      destruct M as (new & -> & L & F & FE).
      exists new. split; [reflexivity|]. split; [lia|]. split; [exact F | lia].
Qed.

(** X12.  [discover_by_industry] runs its four searches with
    [num_leads // 4] results each, so it scrapes at most [4 * (num_leads // 4)]
    pages, which is at most [num_leads], and returns at most that many
    leads: none when fewer than four are asked for.  Each lead has the keys
    [source_url] and [source_query].  The only exception it raises by itself
    is the [TypeError] of unpacking a record that is no mapping. *)
Theorem discover_by_industry_stays_within_num_leads :
  forall (industry location : string) (num_leads : nat) (env : Env),
  exists res env' t,
    discover_by_industry industry location num_leads env = (res, env') /\
    trace env' = trace env ++ t /\
    count_events is_rate_limit t <= 4 * (num_leads / 4) <= num_leads /\
    count_events is_fetch_call t <= 4 + count_events is_rate_limit t /\
    match res with
    | inr leads =>
        List.length leads <= 4 * (num_leads / 4) /\
        Forall has_source leads /\
        count_events is_fetch_call t = 4 + count_events is_rate_limit t
    | inl e => e = TypeError
    end.
Proof.
  intros industry location num_leads env. unfold discover_by_industry.
  destruct (discover_queries_spec
              (num_leads / List.length (industry_queries industry location))
              (industry_queries industry location) [] env)
    as (res & env' & t & E & T & R & FB & M).
  rewrite E. change (List.length (industry_queries industry location)) with 4 in *.
  pose proof (Nat.Div0.mul_div_le num_leads 4) as D.
  destruct res as [e|leads].
  - exists (inl e), env', t. split; [reflexivity|]. split; [exact T|].
    split; [lia|]. split; [lia | exact M].
  - destruct M as (new & -> & L & F & FE). cbn [app] in *.
    exists (inr (firstn num_leads new)), env', t. split; [reflexivity|].
    split; [exact T|]. split; [lia|]. split; [lia|].
    split; [pose proof (firstn_le_length num_leads new); rewrite length_firstn; lia|].
    split; [|lia].
    rewrite Forall_forall in *. intros lead Hl. apply F. eapply incl_firstn, Hl.
Qed.

(** ** Enrichment *)

Lemma get_truthy_set (k k' : string) (v : Json Number) (d : Lead) :
  get_truthy k (dict_set k' v d) = if k =? k' then truthy_value v else get_truthy k d.
Proof. unfold get_truthy. rewrite dict_get_set. destruct (k =? k'); reflexivity. Qed.

(** The merge touches no field that has a value, drops no key, and writes
    only values of the scraped record that are not empty. *)
Lemma merge_lead_info_spec (items : Dict (Json Number)) :
  forall (lead_data : Lead) (k : string),
    (get_truthy k lead_data = true ->
     dict_get k (merge_lead_info items lead_data) = dict_get k lead_data) /\
    (dict_has k lead_data = true ->
     dict_has k (merge_lead_info items lead_data) = true) /\
    (forall v, dict_get k (merge_lead_info items lead_data) = Some v ->
               dict_get k lead_data = Some v \/ (truthy_value v = true /\ In (k, v) items)).
Proof.
  induction items as [|[key value] items IH]; intros lead_data k; cbn [merge_lead_info].
  - repeat split; auto.
  - set (lead1 := if truthy_value value && negb (get_truthy key lead_data)
                  then dict_set key value lead_data else lead_data).
    destruct (IH lead1 k) as (K1 & K2 & K3).
    destruct (truthy_value value && negb (get_truthy key lead_data)) eqn:C; subst lead1.
    + apply andb_true_iff in C. destruct C as [Cv Ck]. apply negb_true_iff in Ck.
      split; [|split].
      * intros H. assert (N : (k =? key) = false).
        { destruct (k =? key) eqn:Ek; [|reflexivity].
          apply String.eqb_eq in Ek. subst. congruence. }
        rewrite K1; [rewrite dict_get_set, N; reflexivity|].
        rewrite get_truthy_set, N. exact H.
      * intros H. apply K2. rewrite dict_has_set, H. apply orb_true_r.
      * intros v H. destruct (K3 v H) as [G | [Tv Iv]].
        -- rewrite dict_get_set in G. destruct (k =? key) eqn:Ek; [|now left].
           apply String.eqb_eq in Ek. subst. injection G as <-.
           right. split; [exact Cv | now left].
        -- right. split; [exact Tv | now right].
    + split; [exact K1|]. split; [exact K2|].
      intros v H. destruct (K3 v H) as [G | [Tv Iv]]; [now left|].
      right. split; [exact Tv | now right].
Qed.

(** After the merge every field the scraped record has a value for is filled. *)
Lemma merge_lead_info_fills (items : Dict (Json Number)) :
  forall (lead_data : Lead) (k : string) (v : Json Number),
    In (k, v) items -> truthy_value v = true ->
    get_truthy k (merge_lead_info items lead_data) = true.
Proof.
  induction items as [|[key value] items IH]; intros lead_data k v Hin Hv;
    cbn [merge_lead_info]; [destruct Hin|].
  destruct Hin as [Heq | Hin]; [|eapply IH; eassumption].
  injection Heq as -> ->. rewrite Hv. cbn [andb].
  set (lead1 := if negb (get_truthy k lead_data) then _ else _).
  assert (H1 : get_truthy k lead1 = true).
  { subst lead1. destruct (get_truthy k lead_data) eqn:G; cbn [negb]; [exact G|].
    rewrite get_truthy_set, String.eqb_refl. exact Hv. }
  destruct (merge_lead_info_spec items lead1 k) as (K1 & _).
  unfold get_truthy at 1. rewrite (K1 H1). exact H1.
Qed.

Lemma enrich_from_website_spec (lead_data : Lead) (env : Env) :
  exists res env' t,
    enrich_from_website lead_data env = (res, env') /\
    trace env' = trace env ++ t /\
    count_events is_fetch_call t <= 1 /\
    count_events is_request t <= 3 /\
    (get_truthy "website" lead_data = false -> t = []) /\
    match res with
    | inr lead' =>
        forall k,
          (get_truthy k lead_data = true -> dict_get k lead' = dict_get k lead_data) /\
          (dict_has k lead_data = true -> dict_has k lead' = true) /\
          (forall v, dict_get k lead' = Some v ->
                     dict_get k lead_data = Some v \/ truthy_value v = true)
    | inl e => e = NoItemsError
    end.
Proof.
  assert (Same : forall k : string,
             (get_truthy k lead_data = true -> dict_get k lead_data = dict_get k lead_data) /\
             (dict_has k lead_data = true -> dict_has k lead_data = true) /\
             (forall v, dict_get k lead_data = Some v ->
                        dict_get k lead_data = Some v \/ truthy_value v = true))
    by (intros k; repeat split; auto).
  assert (Idle : exists res env' t,
             (inr lead_data : PyError + Lead, env) = (res, env') /\
             trace env' = trace env ++ t /\
             count_events is_fetch_call t <= 1 /\
             count_events is_request t <= 3 /\
             (get_truthy "website" lead_data = false -> t = []) /\
             match res with
             | inr lead' =>
                 forall k,
                   (get_truthy k lead_data = true -> dict_get k lead' = dict_get k lead_data) /\
                   (dict_has k lead_data = true -> dict_has k lead' = true) /\
                   (forall v, dict_get k lead' = Some v ->
                              dict_get k lead_data = Some v \/ truthy_value v = true)
             | inl e => e = NoItemsError
             end).
  { exists (inr lead_data), env, []. rewrite app_nil_r.
    split; [reflexivity|]. split; [reflexivity|]. split; [unfold count_events; simpl; lia|].
    split; [unfold count_events; simpl; lia|]. split; [reflexivity | exact Same]. }
  unfold enrich_from_website, get_truthy in *.
  destruct (dict_get "website" lead_data) as [website|]; [|exact Idle].
  destruct (truthy_value website) eqn:Tw; [|exact Idle].
  assert (Off : exists res env' t,
             (inr lead_data : PyError + Lead, scrape_non_string website env) = (res, env') /\
             trace env' = trace env ++ t /\
             count_events is_fetch_call t <= 1 /\
             count_events is_request t <= 3 /\
             (true = false -> t = []) /\
             match res with
             | inr lead' =>
                 forall k,
                   (match dict_get k lead_data with
                    | Some v => truthy_value v | None => false end = true ->
                    dict_get k lead' = dict_get k lead_data) /\
                   (dict_has k lead_data = true -> dict_has k lead' = true) /\
                   (forall v, dict_get k lead' = Some v ->
                              dict_get k lead_data = Some v \/ truthy_value v = true)
             | inl e => e = NoItemsError
             end).
  { eexists _, _, [_; _; _; _; _; _]. split; [reflexivity|].
    split; [unfold scrape_non_string, bind, log; simpl; rewrite <- !app_assoc; reflexivity|].
    split; [unfold count_events; simpl; lia|]. split; [unfold count_events; simpl; lia|]. split; [discriminate | exact Same]. }
  destruct website as [| | |url| |]; try exact Off.
  destruct (scrape_single_counts url None true true env)
    as (r & env1 & t & E & _ & T & FC & _ & RC).
  rewrite E.
  assert (Kept : exists res env' t0,
             (inr lead_data : PyError + Lead, env1) = (res, env') /\
             trace env' = trace env ++ t0 /\
             count_events is_fetch_call t0 <= 1 /\
             count_events is_request t0 <= 3 /\
             (true = false -> t0 = []) /\
             match res with
             | inr lead' =>
                 forall k,
                   (match dict_get k lead_data with
                    | Some v => truthy_value v | None => false end = true ->
                    dict_get k lead' = dict_get k lead_data) /\
                   (dict_has k lead_data = true -> dict_has k lead' = true) /\
                   (forall v, dict_get k lead' = Some v ->
                              dict_get k lead_data = Some v \/ truthy_value v = true)
             | inl e => e = NoItemsError
             end).
  { exists (inr lead_data), env1, t. split; [reflexivity|]. split; [exact T|].
    split; [lia|]. split; [lia|]. split; [discriminate | exact Same]. }
  destruct (result_lead_info r) as [info|]; [|exact Kept].
  destruct (truthy_value info); [|exact Kept].
  destruct info as [| | | | |fields];
    try (exists (inl NoItemsError), env1, t; split; [reflexivity|]; split; [exact T|];
         split; [lia|]; split; [lia|]; split; [discriminate | reflexivity]).
  exists (inr (merge_lead_info fields lead_data)), env1, t.
  split; [reflexivity|]. split; [exact T|]. split; [lia|]. split; [lia|].
  split; [discriminate|].
  intros k. destruct (merge_lead_info_spec fields lead_data k) as (K1 & K2 & K3).
  split; [exact K1|]. split; [exact K2|].
  intros v H. destruct (K3 v H) as [G | [Tv _]]; auto.
Qed.

(** X13.  [enrich_lead] fetches at most one page, the website of the lead,
    and none when the lead has no website.  It never changes a field that
    has a value, never drops a key, writes only values that are not empty,
    and always sets [ai_insights].  The only exception it raises by itself
    comes from a scraped record that is no mapping. *)
Theorem enrich_lead_fills_only_empty_fields :
  forall (lead_data : Lead) (env : Env),
  exists res env' t,
    enrich_lead lead_data env = (res, env') /\
    trace env' = trace env ++ t /\
    count_events is_fetch_call t <= 1 /\
    count_events is_request t <= 3 /\
    (get_truthy "website" lead_data = false -> t = []) /\
    match res with
    | inr enriched =>
        dict_has "ai_insights" enriched = true /\
        forall k, k <> "ai_insights" ->
          (get_truthy k lead_data = true -> dict_get k enriched = dict_get k lead_data) /\
          (dict_has k lead_data = true -> dict_has k enriched = true) /\
          (forall v, dict_get k enriched = Some v ->
                     dict_get k lead_data = Some v \/ truthy_value v = true)
    | inl e => e = NoItemsError
    end.
Proof.
  intros lead_data env. unfold enrich_lead.
  destruct (enrich_from_website_spec lead_data env)
    as (res & env1 & t & E & T & FC & RC & W & M).
  rewrite E. destruct res as [e|lead'].
  - exists (inl e), env1, t. repeat split; auto.
  - destruct (generate_insights (world env1) lead') as [insights w].
    eexists (inr _), _, t. split; [reflexivity|]. split; [exact T|].
    split; [exact FC|]. split; [exact RC|]. split; [exact W|].
    split; [rewrite dict_has_set; reflexivity|].
    intros k Hk. destruct (M k) as (K1 & K2 & K3).
    assert (N : (k =? "ai_insights") = false) by (apply String.eqb_neq; exact Hk).
    rewrite dict_has_set, dict_get_set, N. cbn [orb]. auto.
Qed.

(** X14.  The loop of [enrich_lead] over the scraped record fills every
    field the record has a value for: after it, each key of the record
    whose value is not empty has a value in the lead, the one the lead had
    if it had one. *)
Theorem enrich_merge_fills_scraped_fields :
  forall (fields : Dict (Json Number)) (lead_data : Lead),
    Forall (fun item =>
              truthy_value (snd item) = true ->
              get_truthy (fst item) (merge_lead_info fields lead_data) = true /\
              (get_truthy (fst item) lead_data = true ->
               dict_get (fst item) (merge_lead_info fields lead_data)
               = dict_get (fst item) lead_data))
           fields.
Proof.
  intros fields lead_data. apply Forall_forall. intros [k v] Hin Hv. cbn [fst snd] in *.
  split; [eapply merge_lead_info_fills; eassumption|].
  apply (merge_lead_info_spec fields lead_data k).
Qed.

End Engine.

(** * The engine on concrete sites *)

Local Abbreviation start_env := {| world := tt; trace := [] |}.
Local Abbreviation seed_url := "https://a.example/".
Local Abbreviation pdf_url := "https://a.example/private/report.pdf".

Local Abbreviation fetch_page_on site :=
  (_fetch_page unit Soup no_length parsed (site_get site)).
Local Abbreviation scrape_single_on site :=
  (scrape_single unit Soup no_length parsed (site_get site) no_llm "").
Local Abbreviation crawl_run_on site batch :=
  (crawl_run unit Soup no_length parsed (site_get site) simple_netloc absolute_join
     literal_search no_llm "" batch).
Local Abbreviation crawl_site_on site batch :=
  (crawl_site unit Soup no_length parsed (site_get site) simple_netloc absolute_join
     literal_search no_llm "" batch).
Local Abbreviation map_run_on site :=
  (map_run unit Soup no_length parsed (site_get site) simple_netloc simple_path
     absolute_join).
Local Abbreviation map_site_on site :=
  (map_site unit Soup no_length parsed (site_get site) simple_netloc simple_path
     absolute_join).

(** C1.  With [max_pages = 2] and batches of five, a crawl of a home page
    that links to three pages of its site returns four results: the home
    page, then the whole second batch. *)
Example crawl_overshoots_max_pages :
  option_map (fun p => (pages_crawled _ (fst p),
                        map (result_url _) (crawl_results _ (fst p))))
    (crawl_site_on four_page_site 5 10 seed_url 2 None None None start_env)
  = Some (4, ["https://a.example/"; "https://a.example/a";
              "https://a.example/b"; "https://a.example/c"]).
Proof. vm_compute. reflexivity. Qed.

Lemma crawl_results_bounded_witness :
  1 <= 5 /\
  exists fuel st env',
    crawl_run_on four_page_site 5 fuel seed_url 2 None None None start_env
    = Some (st, env') /\
    (Z.of_nat (List.length (results _ st)) <= 6)%Z.
Proof.
  split; [lia|].
  destruct (crawl_results_bounded_by_limit_plus_batch unit Soup no_length parsed
              (site_get four_page_site) simple_netloc absolute_join literal_search
              no_llm "" 5 ltac:(lia) seed_url 2%Z None None None start_env)
    as (fuel & st & env' & H1 & _ & _ & H4).
  exists fuel, st, env'. split; [exact H1 | exact H4].
Defined.

(** C2, as stated, fails: in the crawl of a single page without links,
    [_fetch_page] is called twice on that page. *)
Example crawl_fetches_a_page_twice :
  option_map (fun p => (fetch_calls seed_url (trace _ (snd p)), trace _ (snd p)))
    (crawl_site_on one_page_site 5 10 seed_url 2 None None None start_env)
  = Some (2, [FetchCall seed_url; Get seed_url; FetchCall seed_url; Get seed_url;
              RateLimit]).
Proof. vm_compute. reflexivity. Qed.

Lemma crawl_gives_each_url_one_task_witness :
  1 <= 5 /\
  exists fuel st env',
    crawl_run_on four_page_site 5 fuel seed_url 10 None None None start_env
    = Some (st, env') /\
    NoDup (visited_urls _ st) /\
    forall u, fetch_calls u (trace _ env') <= 2.
Proof.
  split; [lia|].
  destruct (crawl_gives_each_url_one_task unit Soup no_length parsed
              (site_get four_page_site) simple_netloc absolute_join literal_search
              no_llm "" 5 ltac:(lia) seed_url 10%Z None None None tt)
    as [(fuel & st & env' & H1 & H2 & _ & H4) _].
  exists fuel, st, env'. auto.
Defined.

(** C3, as stated, fails: the crawl of a site whose only page answers 404
    sends its three requests and returns a payload that says nothing of the
    page: no result, a count of zero, [success = True]. *)
Example crawl_payload_omits_failed_page :
  option_map (fun p => (fst p, requests seed_url (trace _ (snd p))))
    (crawl_site_on gone_site 5 10 seed_url 2 None None None start_env)
  = Some ({| crawl_success := true; start_url := seed_url;
             pages_crawled := 0; crawl_results := [] |}, 3).
Proof. vm_compute. reflexivity. Qed.

Lemma page_failures_stay_out_of_the_payload_witness :
  1 <= 5 /\
  (exists fuel payload env',
      crawl_site_on gone_site 5 fuel seed_url 2 None None None start_env
      = Some (payload, env') /\
      crawl_success _ payload = true /\
      pages_crawled _ payload = List.length (crawl_results _ payload) /\
      Forall (fun r => success _ r = true) (crawl_results _ payload)) /\
  (exists fuel payload env',
      map_site_on gone_site fuel seed_url 2 start_env = Some (payload, env') /\
      total_pages payload = List.length (sitemap payload) /\
      ~ In seed_url (map entry_url (sitemap payload))).
Proof.
  split; [lia|].
  destruct (page_failures_stay_out_of_the_payload unit Soup no_length parsed
              (site_get gone_site) simple_netloc simple_path absolute_join
              literal_search no_llm "" 5 ltac:(lia) seed_url 2%Z None None None
              "leads" 3%Z start_env)
    as (Hc & (fuel & payload & env' & Hr & _ & Ht & _ & Hm) & _).
  split; [exact Hc|].
  exists fuel, payload, env'. split; [exact Hr|]. split; [exact Ht|].
  apply Hm. intros w. eexists. reflexivity.
Defined.

(** C4, as stated, fails: a 404, which is permanent, is requested three
    times, with the two sleeps in between. *)
Example fetch_page_retries_not_found :
  permanent (HTTPStatusError 404) = true /\
  fetch_page_on gone_site seed_url start_env
  = (inl (RetryError (HTTPStatusError 404)),
     {| world := tt;
        trace := [FetchCall seed_url; Get seed_url; Backoff 2; Get seed_url;
                  Backoff 2; Get seed_url] |}).
Proof. split; vm_compute; reflexivity. Qed.

Lemma fetch_page_retries_every_failure_witness :
  outcome_error Soup (fst (site_get gone_site tt seed_url)) = Some (HTTPStatusError 404) /\
  permanent (HTTPStatusError 404) = true /\
  requests seed_url [] + 2
  <= requests seed_url (trace _ (snd (fetch_page_on gone_site seed_url start_env))).
Proof.
  split; [reflexivity|]. split; [reflexivity|].
  exact (proj1 (fetch_page_retries_every_failure unit Soup no_length parsed
                  (site_get gone_site) seed_url start_env (HTTPStatusError 404)
                  eq_refl)).
Defined.

Lemma should_crawl_decision_order_witness :
  _should_crawl simple_netloc literal_search "https://a.example/blog/private"
    "a.example" (Some ["blog"]) (Some ["private"]) = false.
Proof.
  apply (proj2 (should_crawl_decision_order simple_netloc literal_search
                  "https://a.example/blog/private" "a.example"
                  (Some ["blog"]) (Some ["private"]))).
  reflexivity.
Defined.

Lemma crawl_and_map_stay_on_seed_host_witness :
  1 <= 5 /\
  (exists fuel st env',
      crawl_run_on four_page_site 5 fuel seed_url 10 None None None start_env
      = Some (st, env') /\
      Forall (fun u => simple_netloc u = "a.example")
             (visited_urls _ st ++ queue _ st)) /\
  (exists fuel st env',
      map_run_on four_page_site fuel seed_url 10 start_env = Some (st, env') /\
      Forall (from_host simple_netloc "a.example") (map_visited st ++ map_queue st)).
Proof.
  split; [lia|].
  exact (proj2 (crawl_and_map_stay_on_seed_host unit Soup no_length parsed
                  (site_get four_page_site) simple_netloc simple_path absolute_join
                  literal_search no_llm "" 5 ltac:(lia) seed_url 10%Z None None None
                  start_env)).
Defined.

(** C7.  On a page with a banner and a side bar, the text keeps what stands
    in [header] and [aside], which the markdown drops. *)
Example extract_text_keeps_header_and_aside :
  _extract_text Soup parsed banner_page = "Site banner Body text Related links" /\
  _html_to_markdown Soup parsed banner_page = "Body text".
Proof. split; vm_compute; reflexivity. Qed.

(** C8, as stated, fails: the path of this URL ends in [/], no earlier rule
    holds of it, and its type is [other], for the URL string ends in the
    query. *)
Example classify_reads_url_not_path :
  _classify_page_type "https://a.example/docs/?q=1" (html_page "Docs" []) = inr "other" /\
  simple_path "https://a.example/docs/?q=1" = "/docs/" /\
  spec_page_type simple_path "https://a.example/docs/?q=1" = "page".
Proof. repeat split; vm_compute; reflexivity. Qed.

Lemma fetch_page_gives_up_after_three_attempts_witness :
  fails_transiently unit Soup (site_get slow_site) seed_url /\
  exists cause env',
    fetch_page_on slow_site seed_url start_env = (inl (RetryError cause), env') /\
    transient cause = true /\
    backoffs (trace _ env') = [2; 2]%Z /\
    requests seed_url (trace _ env') = 3 /\
    scrape_single_on slow_site seed_url None true true start_env
    = (inr (ScrapeFailed _ seed_url (RetryError cause)), env').
Proof.
  assert (H : fails_transiently unit Soup (site_get slow_site) seed_url).
  { intros w. exists (RequestError ReadTimeout). split; reflexivity. }
  split; [exact H|].
  destruct (fetch_page_gives_up_after_three_attempts unit Soup no_length parsed
              (site_get slow_site) no_llm "" seed_url H None true true start_env)
    as (cause & env' & E & Tr & T & R & _ & S).
  exists cause, env'. split; [exact E|]. split; [exact Tr|].
  split; [rewrite T; reflexivity|]. split; [exact R | exact S].
Defined.

Lemma crawl_fetches_seed_unfiltered_witness :
  1 <= 5 /\ (1 <= 10)%Z /\
  _should_crawl simple_netloc literal_search pdf_url (simple_netloc pdf_url)
    None (Some ["private"]) = false /\
  exists fuel st env',
    crawl_run_on pdf_site 5 fuel pdf_url 10 None None (Some ["private"]) start_env
    = Some (st, env') /\
    hd_error (visited_urls _ st) = Some pdf_url /\
    option_map (result_url _) (hd_error (results _ st)) = Some pdf_url.
Proof.
  split; [lia|]. split; [lia|]. split; [reflexivity|].
  destruct (crawl_fetches_seed_unfiltered unit Soup no_length parsed
              (site_get pdf_site) simple_netloc absolute_join literal_search
              no_llm "" 5 ltac:(lia) pdf_url 10%Z None None (Some ["private"])
              start_env ltac:(lia))
    as (fuel & st & env' & H1 & H2 & _ & (r & Hr & Hu & Hs)).
  exists fuel, st, env'. split; [exact H1|]. split; [exact H2|].
  vm_compute in Hr. injection Hr as <-.
  rewrite (Hs eq_refl). reflexivity.
Defined.

Lemma crawl_site_fuel_irrelevant_witness :
  option_map fst (crawl_site_on four_page_site 5 10 seed_url 2 None None None start_env)
  = option_map fst (crawl_site_on four_page_site 5 20 seed_url 2 None None None start_env).
Proof.
  assert (H1 : exists r, crawl_site_on four_page_site 5 10 seed_url 2 None None None
                           start_env = Some r)
    by (vm_compute; eexists; reflexivity).
  assert (H2 : exists r, crawl_site_on four_page_site 5 20 seed_url 2 None None None
                           start_env = Some r)
    by (vm_compute; eexists; reflexivity).
  destruct H1 as [r H1]. destruct H2 as [r' H2].
  rewrite H1, H2.
  rewrite (crawl_site_fuel_irrelevant unit Soup no_length parsed
             (site_get four_page_site) simple_netloc absolute_join literal_search
             no_llm "" 5 10 20 seed_url 2%Z None None None start_env r r' H1 H2).
  reflexivity.
Defined.

Lemma crawl_results_distinct_and_filtered_witness :
  1 <= 5 /\
  exists fuel payload env',
    crawl_site_on four_page_site 5 fuel seed_url 10 None (Some ["/a"; "/b"]) (Some ["/b"])
      start_env = Some (payload, env') /\
    NoDup (map (result_url _) (crawl_results _ payload)) /\
    Forall (fun r => success _ r = true) (crawl_results _ payload).
Proof.
  split; [lia|].
  destruct (crawl_results_distinct_and_filtered unit Soup no_length parsed
              (site_get four_page_site) simple_netloc absolute_join literal_search
              no_llm "" 5 ltac:(lia) seed_url 10%Z None (Some ["/a"; "/b"]) (Some ["/b"])
              start_env)
    as (fuel & payload & env' & H1 & H2 & H3).
  exists fuel, payload, env'. split; [exact H1|]. split; [exact H2|].
  eapply Forall_impl; [|exact H3]. intros r Hr. apply Hr.
Defined.

(** The directory of the examples gives three leads: the directory itself
    and its two listings, not the page about it. *)
Example directory_gives_its_listings :
  option_map fst
    (discover_from_directory unit Soup no_length parsed (site_get directory_site)
       simple_netloc absolute_join literal_search url_llm "" 5 Z is_zero record_loads
       10 "https://d.example/" 10 start_env)
  = Some [JObject [("company_name", JString "https://d.example/")];
          JObject [("company_name", JString "https://d.example/company/acme")];
          JObject [("company_name", JString "https://d.example/listing/zen")]].
Proof. vm_compute. reflexivity. Qed.

Lemma directory_leads_come_from_listing_pages_witness :
  1 <= 5 /\
  exists fuel crawl_result leads env',
    crawl_site unit Soup no_length parsed (site_get directory_site) simple_netloc
      absolute_join literal_search url_llm "" 5 fuel "https://d.example/" 10 None
      (Some directory_patterns) None start_env = Some (crawl_result, env') /\
    discover_from_directory unit Soup no_length parsed (site_get directory_site)
      simple_netloc absolute_join literal_search url_llm "" 5 Z is_zero record_loads
      fuel "https://d.example/" 10 start_env = Some (leads, env') /\
    List.length leads <= pages_crawled _ crawl_result /\
    NoDup (map (result_url _) (crawl_results _ crawl_result)).
Proof.
  split; [lia|].
  destruct (directory_leads_come_from_listing_pages unit Soup no_length parsed
              (site_get directory_site) simple_netloc absolute_join literal_search
              url_llm "" 5 Z is_zero record_loads ltac:(lia) "https://d.example/" 10%Z
              start_env)
    as (fuel & crawl_result & leads & env' & H1 & H2 & _ & H3 & _ & H5 & _).
  exists fuel, crawl_result, leads, env'. auto.
Defined.

Lemma url_depth_counts_segments_below_base_witness :
  rstrip_slash (simple_path "https://a.example/docs/api/")
  = (rstrip_slash (simple_path "https://a.example/docs") ++ "/api")%string /\
  _get_url_depth simple_path "https://a.example/docs/api/" "https://a.example/docs" = 1.
Proof.
  split; [reflexivity|].
  exact (proj1 (url_depth_counts_segments_below_base simple_path
                  "https://a.example/docs/api/" "https://a.example/docs" "/api" eq_refl)).
Defined.

(** A map of a site whose only page answers 404 sends its three requests and
    returns an empty sitemap. *)
Example map_sitemap_omits_failed_page :
  option_map (fun p => (fst p, requests seed_url (trace _ (snd p))))
    (map_site_on gone_site 10 seed_url 2 start_env)
  = Some ({| map_success := true; map_url := seed_url;
             total_pages := 0; sitemap := [] |}, 3).
Proof. vm_compute. reflexivity. Qed.

(** The empty schema is false as a condition: nothing is extracted for it,
    while another schema gets the answer of the model. *)
Example scrape_single_skips_empty_schema :
  (match fst (scrape_single unit Soup no_length parsed (site_get one_page_site) url_llm ""
                seed_url (Some "{}") true true start_env) with
   | inr r => result_extracted _ r
   | inl _ => None
   end,
   match fst (scrape_single unit Soup no_length parsed (site_get one_page_site) url_llm ""
                seed_url (Some "{name: string}") true true start_env) with
   | inr r => result_extracted _ r
   | inl _ => None
   end)
  = (None, Some seed_url).
Proof. vm_compute. reflexivity. Qed.

(** A link given twice, with and without a fragment, is reported once, and a
    link to a part of the page is a link to the page. *)
Example crawl_page_cuts_fragments :
  match fst (_crawl_page unit Soup no_length parsed (site_get fragment_site)
               absolute_join no_llm "" seed_url None start_env) with
  | inr r => result_links _ r
  | inl _ => []
  end
  = ["https://a.example/a"; "https://a.example/"].
Proof. vm_compute. reflexivity. Qed.

(** With [num_results = -1] a search scrapes all the hits but the last: two
    of the three hits of the page. *)
Example search_with_negative_count :
  match fst (search_and_scrape unit Soup no_length parsed (site_get search_site) no_llm ""
               "leads" (-1) None start_env) with
  | inr (SearchCompleted _ _ n found) => Some (n, map (result_url _) found)
  | _ => None
  end
  = Some (2, ["https://a.example/a"; "https://a.example/b"]).
Proof. vm_compute. reflexivity. Qed.
